(** * dphox.passive: composite photonic components

    A shallow embedding of [src/dphox/passive.py].  Python floats are read as
    real numbers, Python objects live in an explicit store (so that aliasing
    between a template and the components built from it is visible), and
    every constructor runs in a state-and-exception monad over that store.

    The base classes [Port], [Pattern] and [Device] and the curve generator
    are not part of the sources at hand: their operations are modelled from
    the specification, and the numerical geometry they rest on (sweeping a
    trajectory, buffering, striping) is a parameter, the class [Geometry].

    The file has three parts: the embedding, the vocabulary of the statements
    with a concrete instance of the parameters, and the facts about each
    component, followed by runs of the constructors on concrete inputs. *)

From Stdlib Require Import Reals Lra ZArith Lia.
From stdpp Require Import base option list gmap strings.

Local Open Scope R_scope.

(** ** Exceptions and results *)

Inductive exn : Type :=
| AttributeError (attr : string)
| KeyError (key : string)
| IndexError
| TypeError
| ValueError
| RecursionError
| SystemError.

Inductive result (A : Type) : Type :=
| Ok (v : A)
| Err (e : exn).
Arguments Ok {A} v.
Arguments Err {A} e.

(** ** Plane geometry on point lists *)

Definition point : Type := R * R.
Definition polygon : Type := list point.

Definition radians (deg : R) : R := deg * PI / 180.

Definition translate_point (dx dy : R) (p : point) : point :=
  (fst p + dx, snd p + dy).

Definition rotate_point (deg : R) (p : point) : point :=
  (fst p * cos (radians deg) - snd p * sin (radians deg),
   fst p * sin (radians deg) + snd p * cos (radians deg)).

Definition translate_polygons (dx dy : R) : list polygon -> list polygon :=
  map (map (translate_point dx dy)).

Definition rotate_polygons (deg : R) : list polygon -> list polygon :=
  map (map (rotate_point deg)).

(** Bounding box (minx, miny, maxx, maxy) of a polygon set; an empty set has
    none. *)
Definition bounds_of (ps : list polygon) : option (R * R * R * R) :=
  match concat ps with
  | [] => None
  | p :: q =>
      Some (foldr Rmin (fst p) (map fst q), foldr Rmin (snd p) (map snd q),
            foldr Rmax (fst p) (map fst q), foldr Rmax (snd p) (map snd q))
  end.

Definition size_of (b : R * R * R * R) : R * R :=
  let '(minx, miny, maxx, maxy) := b in (maxx - minx, maxy - miny).

Definition center_of (b : R * R * R * R) : R * R :=
  let '(minx, miny, maxx, maxy) := b in ((minx + maxx) / 2, (miny + maxy) / 2).

(** ** The external collaborators *)

(** Trajectories of the curve generator, kept as analytic descriptors. *)
Inductive Curve : Type :=
| Straight (l : R)
| Coupler (radius dy interaction_l euler : R)
| GratingArc (angle duty_cycle n_core n_clad fiber_angle wavelength : R)
             (m : Z) (num_evaluations : Z).

(** The numerical geometry the recipes rely on and do not define: sampling and
    sweeping of trajectories, and the polygon algebra. *)
Class Geometry : Type := {
  (** the polygons of a trajectory swept at a width *)
  sweep : Curve -> R -> list polygon;
  (** first and last point of a trajectory, each with its tangent angle *)
  curve_ends : Curve -> (point * R) * (point * R);
  (** the sampled lines of a trajectory *)
  curve_geoms : Curve -> list (list point);
  (** isotropic growth of a polygon set *)
  buffer_of : R -> list polygon -> list polygon;
  (** periodic striping of a polygon set at a stripe width and pitch *)
  striped_of : R -> R * R -> list polygon -> list polygon;
  (** the translation that puts a polygon set next to another one *)
  hstack_shift : list polygon -> list polygon -> R * R;
  (** the rectangle of a given extent *)
  box_of : R * R -> list polygon;
  (** the teeth of a grating arc *)
  arc_polygons : Curve -> list polygon;
  (** the bounding box reported for a polygon set without any point *)
  empty_bounds : R * R * R * R
}.

(** ** The object store *)

(** Modelled from the spec: [pattern.Port] is not part of the sources at hand.
    A port is a position, an orientation in degrees and a width; it is a
    mutable object, so patterns hold references to ports. *)
Record Port : Type := mkPort { px : R; py : R; pa : R; pw : R }.

(** Objects are referred to by their index in the store. *)
Abbreviation ref := nat (only parsing).

(** Modelled from the spec: the state of a [pattern.Pattern]: the polygons it
    owns, its port dictionary (name to port object) and its reference
    sub-patterns. *)
Record Pattern : Type := mkPattern {
  polygons : list polygon;
  port : gmap string ref;
  refs : list ref
}.

(** Modelled from the spec: the state of a [device.Device]: a name, the
    (pattern, layer) entries in order, and the re-exposed ports. *)
Record Device : Type := mkDevice {
  dname : string;
  pattern_to_layer : list (ref * option string);
  dport : gmap string ref
}.

Record store : Type := mkStore {
  ports : list Port;
  patterns : list Pattern;
  devices : list Device
}.

Definition empty_store : store := mkStore [] [] [].

(** ** The construction monad: state passing over the store, with exceptions *)

Definition M (A : Type) : Type := store -> result (A * store).

Definition ret {A} (v : A) : M A := fun s => Ok (v, s).
Definition raise {A} (e : exn) : M A := fun _ => Err e.
Definition bind {A B} (m : M A) (k : A -> M B) : M B :=
  fun s => match m s with
           | Ok (v, s') => k v s'
           | Err e => Err e
           end.

Notation "'let!' x ':=' m 'in' k" := (bind m (fun x => k))
  (at level 10, x name, m at level 100, k at level 200).

Fixpoint mapM {A B} (f : A -> M B) (l : list A) : M (list B) :=
  match l with
  | [] => ret []
  | a :: l' => let! b := f a in let! bs := mapM f l' in ret (b :: bs)
  end.

Definition new_port (p : Port) : M ref :=
  fun s => Ok (length (ports s), mkStore (ports s ++ [p]) (patterns s) (devices s)).

Definition get_port (l : ref) : M Port :=
  fun s => match ports s !! l with
           | Some p => Ok (p, s)
           | None => Err SystemError
           end.

Definition set_port (l : ref) (p : Port) : M unit :=
  fun s => Ok (tt, mkStore (<[l := p]> (ports s)) (patterns s) (devices s)).

Definition new_pattern (p : Pattern) : M ref :=
  fun s => Ok (length (patterns s), mkStore (ports s) (patterns s ++ [p]) (devices s)).

Definition get_pattern (l : ref) : M Pattern :=
  fun s => match patterns s !! l with
           | Some p => Ok (p, s)
           | None => Err SystemError
           end.

Definition set_pattern (l : ref) (p : Pattern) : M unit :=
  fun s => Ok (tt, mkStore (ports s) (<[l := p]> (patterns s)) (devices s)).

Definition new_device (d : Device) : M ref :=
  fun s => Ok (length (devices s), mkStore (ports s) (patterns s) (devices s ++ [d])).

Definition get_device (l : ref) : M Device :=
  fun s => match devices s !! l with
           | Some d => Ok (d, s)
           | None => Err SystemError
           end.

Definition set_device (l : ref) (d : Device) : M unit :=
  fun s => Ok (tt, mkStore (ports s) (patterns s) (<[l := d]> (devices s))).

(** [d[key]] on a port dictionary. *)
Definition getitem (d : gmap string ref) (key : string) : M ref :=
  match d !! key with
  | Some l => ret l
  | None => raise (KeyError key)
  end.

(** ** Ports *)

(** Modelled from the spec: [Port(x, y, a, w)] builds a fresh port object; the
    orientation [a] defaults to 0, pointing in +x. *)
Definition Port_init (x y : R) (a : option R) (w : R) : M ref :=
  new_port (mkPort x y (default 0 a) w).

(** Modelled from the spec: [Port.copy] is a fresh object with the same
    position, orientation and width. *)
Definition Port_copy (self : ref) : M ref :=
  let! p := get_port self in new_port p.

Definition translate_port (dx dy : R) (p : Port) : Port :=
  mkPort (px p + dx) (py p + dy) (pa p) (pw p).

Definition rotate_port (deg : R) (p : Port) : Port :=
  mkPort (fst (rotate_point deg (px p, py p))) (snd (rotate_point deg (px p, py p)))
         (pa p + deg) (pw p).

(** The port objects a dictionary refers to, in iteration order. *)
Definition port_refs (d : gmap string ref) : list ref := (map_to_list d).*2.

(** Update port objects in place, one application of [f] per listed
    reference. *)
Definition update_ports (f : Port -> Port) (ls : list ref) : M unit :=
  fun s => Ok (tt, mkStore (foldr (fun l ps => alter f l ps) (ports s) ls)
                           (patterns s) (devices s)).

Section Passive.

Context {G : Geometry}.

(** ** Pattern operations *)

(** Modelled from the spec: [Pattern.__init__] owns the polygons of
    the given patterns, in the order given; the port dictionary starts empty
    and is filled by the composite recipe. *)
Definition Pattern_init (members : list ref) : M ref :=
  let! ps := mapM get_pattern members in
  new_pattern (mkPattern (concat (map polygons ps)) ∅ []).

(** Modelled from the spec: a pattern built from raw polygons. *)
Definition Pattern_of_polygons (ps : list polygon) : M ref :=
  new_pattern (mkPattern ps ∅ []).

(** Modelled from the spec: the in-place transforms move the owned polygons
    and every port of the pattern, and return the pattern itself. *)
Definition Pattern_translate (self : ref) (dx dy : R) : M ref :=
  let! p := get_pattern self in
  let! _ := set_pattern self (mkPattern (translate_polygons dx dy (polygons p)) (port p) (refs p)) in
  let! _ := update_ports (translate_port dx dy) (port_refs (port p)) in
  ret self.

(** Modelled from the spec: [rotate(angle)] in degrees, about the origin. *)
Definition Pattern_rotate (self : ref) (deg : R) : M ref :=
  let! p := get_pattern self in
  let! _ := set_pattern self (mkPattern (rotate_polygons deg (polygons p)) (port p) (refs p)) in
  let! _ := update_ports (rotate_port deg) (port_refs (port p)) in
  ret self.

(** The bounding-box query of the polygon algebra: the box of the points, and
    for a polygon set without any point whatever the algebra reports. *)
Definition bounds (ps : list polygon) : R * R * R * R :=
  default empty_bounds (bounds_of ps).

(** Modelled from the spec: the bounding box of the combined geometry. *)
Definition Pattern_bounds (self : ref) : M (R * R * R * R) :=
  let! p := get_pattern self in ret (bounds (polygons p)).

(** Modelled from the spec: [size] is the extent of the bounding box and
    [center] its centre. *)
Definition Pattern_size (self : ref) : M (R * R) :=
  let! b := Pattern_bounds self in ret (size_of b).

Definition Pattern_center (self : ref) : M (R * R) :=
  let! b := Pattern_bounds self in ret (center_of b).

(** Modelled from the spec: [align()] without a reference translates the
    pattern so that its centre coincides with the origin. *)
Definition Pattern_align (self : ref) : M ref :=
  let! c := Pattern_center self in
  Pattern_translate self (0 - fst c) (0 - snd c).

(** Modelled from the spec: [halign(x, left)] anchors the left (or right) edge
    of the bounding box at [x]. *)
Definition Pattern_halign (self : ref) (x : R) (left : bool) : M ref :=
  let! b := Pattern_bounds self in
  let '(minx, _, maxx, _) := b in
  Pattern_translate self (x - (if left then minx else maxx)) 0.

(** Deep copy of a port dictionary: every entry gets a fresh port object. *)
Definition copy_port_dict (d : gmap string ref) : M (gmap string ref) :=
  let! kvs := mapM (fun kv : string * ref =>
                      let! l := Port_copy (snd kv) in ret (fst kv, l))
                   (map_to_list d) in
  ret (list_to_map kvs).

(** Modelled from the spec: [Pattern.copy] deep-copies polygons, ports and
    reference sub-patterns.  The recursion through the references is bounded
    by the number of patterns in the store. *)
Fixpoint deepcopy (fuel : nat) (self : ref) : M ref :=
  match fuel with
  | O => raise RecursionError
  | S n =>
      let! p := get_pattern self in
      let! d := copy_port_dict (port p) in
      let! rs := mapM (deepcopy n) (refs p) in
      new_pattern (mkPattern (polygons p) d rs)
  end.

Definition Pattern_copy (self : ref) : M ref :=
  fun s => deepcopy (S (length (patterns s))) self s.

(** Modelled from the spec: [to(port)] docks the pattern: its own port a0 is
    mapped onto the target position with the opposite orientation. *)
Definition Pattern_to (self : ref) (target : ref) : M ref :=
  let! p := get_pattern self in
  let! a0 := getitem (port p) "a0" in
  let! t := get_port target in
  let! p0 := get_port a0 in
  let! _ := Pattern_rotate self (pa t - pa p0 + 180) in
  let! p1 := get_port a0 in
  Pattern_translate self (px t - px p1) (py t - py p1).


(** [d[key] = l] and attribute updates on a pattern object. *)
Definition port_setitem (self : ref) (key : string) (l : ref) : M unit :=
  let! p := get_pattern self in
  set_pattern self (mkPattern (polygons p) (<[key := l]> (port p)) (refs p)).

Definition port_getitem (self : ref) (key : string) : M ref :=
  let! p := get_pattern self in getitem (port p) key.

Definition set_port_dict (self : ref) (d : gmap string ref) : M unit :=
  let! p := get_pattern self in
  set_pattern self (mkPattern (polygons p) d (refs p)).

Definition refs_extend (self : ref) (rs : list ref) : M unit :=
  let! p := get_pattern self in
  set_pattern self (mkPattern (polygons p) (port p) (refs p ++ rs)).

(** Modelled from the spec: [parametric.dc], the coupler trajectory; a zero or
    negative radius and a non-positive interaction length are rejected. *)
Definition dc (radius dy interaction_l euler : R) : M Curve :=
  if Rle_dec radius 0 then raise ValueError
  else if Rle_dec interaction_l 0 then raise ValueError
  else ret (Coupler radius dy interaction_l euler).

(** Modelled from the spec: [parametric.straight]. *)
Definition straight (l : R) : M Curve := ret (Straight l).

(** Modelled from the spec: the [path(width)] method of a trajectory sweeps it
    into polygons and seeds the ports a0 and b0 from its two ends, each with
    the path width. *)
Definition path (c : Curve) (width : R) : M ref :=
  let first_end := fst (curve_ends c) in
  let last_end := snd (curve_ends c) in
  let! a0 := Port_init (fst (fst first_end)) (snd (fst first_end)) (Some (snd first_end)) width in
  let! b0 := Port_init (fst (fst last_end)) (snd (fst last_end)) (Some (snd last_end)) width in
  new_pattern (mkPattern (sweep c width) (<["b0" := b0]> (<["a0" := a0]> ∅)) []).

(** ** DC: the directional coupler *)

Record DC_fields : Type := mkDC_fields {
  waveguide_w : R;
  bend_radius : R;
  interport_distance : R;
  gap_w : R;
  interaction_l : R;
  euler : R;
  end_l : R;
  coupler_waveguide_w : option R;
  use_radius : bool
}.

Record DC : Type := mkDC {
  DC_self : ref;
  DC_attrs : DC_fields;
  lower_path : ref;
  upper_path : ref
}.

Definition set_coupler_waveguide_w (f : DC_fields) (v : R) : DC_fields :=
  mkDC_fields (waveguide_w f) (bend_radius f) (interport_distance f) (gap_w f)
              (interaction_l f) (euler f) (end_l f) (Some v) (use_radius f).

Definition DC_post_init (f : DC_fields) : M DC :=
  let cw := match coupler_waveguide_w f with None => waveguide_w f | Some c => c end in
  let f := set_coupler_waveguide_w f cw in
  let radius := bend_radius f in
  let dy := (interport_distance f - gap_w f - cw) / 2 in
  let w := cw in
  let! c_lower := dc radius dy (interaction_l f) (euler f) in
  let! lower_path := path c_lower (waveguide_w f) in
  let! c_upper := dc radius (- dy) (interaction_l f) (euler f) in
  let! upper_path := path c_upper (waveguide_w f) in
  let! _ := Pattern_translate upper_path 0 (interport_distance f) in
  let! self := Pattern_init [lower_path; upper_path] in
  let! a0 := Port_init 0 0 (Some (-180)) (waveguide_w f) in
  let! _ := port_setitem self "a0" a0 in
  let! a1 := Port_init 0 (interport_distance f) (Some (-180)) (waveguide_w f) in
  let! _ := port_setitem self "a1" a1 in
  let! size0 := Pattern_size self in
  let! b0 := Port_init (fst size0) 0 None (waveguide_w f) in
  let! _ := port_setitem self "b0" b0 in
  let! size1 := Pattern_size self in
  let! b1 := Port_init (fst size1) (interport_distance f) None (waveguide_w f) in
  let! _ := port_setitem self "b1" b1 in
  let! pa0 := port_getitem self "a0" in
  let! la0 := Port_copy pa0 in
  let! pb0 := port_getitem self "b0" in
  let! lb0 := Port_copy pb0 in
  let! _ := set_port_dict lower_path (<["b0" := lb0]> (<["a0" := la0]> ∅)) in
  let! pa1 := port_getitem self "a1" in
  let! ua0 := Port_copy pa1 in
  let! pb1 := port_getitem self "b1" in
  let! ub0 := Port_copy pb1 in
  let! _ := set_port_dict upper_path (<["b0" := ub0]> (<["a0" := ua0]> ∅)) in
  let! _ := refs_extend self [lower_path; upper_path] in
  ret (mkDC self f lower_path upper_path).

(** [np.asarray] of a pair, with the element-wise operations used below. *)
Definition np_sub (u v : R * R) : R * R := (fst u - fst v, snd u - snd v).
Definition np_add (u v : R * R) : R * R := (fst u + fst v, snd u + snd v).
Definition np_div (u : R * R) (k : R) : R * R := (fst u / k, snd u / k).

Definition interaction_points (self : DC) : M (list (R * R)) :=
  let f := DC_attrs self in
  let! center := Pattern_center (DC_self self) in
  let bl := np_sub center (np_div (interaction_l f, waveguide_w f + gap_w f) 2) in
  let tl := np_add bl (0, waveguide_w f + gap_w f) in
  let br := np_add bl (interaction_l f, 0) in
  let tr := np_add tl (interaction_l f, 0) in
  ret [bl; tl; br; tr].

(** ** Cross *)

Record Cross : Type := mkCross {
  Cross_self : ref;
  Cross_waveguide : ref
}.

Definition Cross_post_init (waveguide : ref) : M Cross :=
  let! horizontal := Pattern_align waveguide in
  let! aligned := Pattern_align waveguide in
  let! copied := Pattern_copy aligned in
  let! vertical := Pattern_rotate copied 90 in
  let! self := Pattern_init [horizontal; vertical] in
  let! h_a0 := port_getitem horizontal "a0" in
  let! _ := port_setitem self "a0" h_a0 in
  let! v_a0 := port_getitem vertical "a0" in
  let! _ := port_setitem self "a1" v_a0 in
  let! h_b0 := port_getitem horizontal "b0" in
  let! _ := port_setitem self "b0" h_b0 in
  let! v_b0 := port_getitem vertical "b0" in
  let! _ := port_setitem self "b1" v_b0 in
  ret (mkCross self waveguide).

(** ** Array *)

(** The values the [pitch] attribute can hold: [None], a number, or a tuple. *)
#[warnings="-register-all"]
Inductive pyval : Type :=
| PyNone
| PyInt (z : Z)
| PyFloat (r : R)
| PyTuple (vs : list pyval).

Definition isinstance_float (v : pyval) : bool :=
  match v with PyFloat _ => true | _ => false end.

(** [i * v] for an int [i]: a product of numbers, and repetition of a tuple. *)
Definition int_mul (i : Z) (v : pyval) : result pyval :=
  match v with
  | PyNone => Err TypeError
  | PyInt z => Ok (PyInt (i * z))
  | PyFloat r => Ok (PyFloat (IZR i * r))
  | PyTuple vs => Ok (PyTuple (concat (replicate (Z.to_nat i) vs)))
  end.

(** A numeric argument, as the transforms expect it. *)
Definition as_number (v : pyval) : result R :=
  match v with
  | PyInt z => Ok (IZR z)
  | PyFloat r => Ok r
  | _ => Err TypeError
  end.

Definition lift {A} (r : result A) : M A :=
  fun s => match r with Ok v => Ok (v, s) | Err e => Err e end.

(** [translate(dx, dy)] called with arbitrary values: the offsets must be
    numbers. *)
Definition Pattern_translate_values (self : ref) (dx dy : pyval) : M ref :=
  let! x := lift (as_number dx) in
  let! y := lift (as_number dy) in
  Pattern_translate self x y.

(** [range(n)] *)
Definition range (n : Z) : list Z := map Z.of_nat (seq 0 (Z.to_nat n)).

Record Array : Type := mkArray {
  Array_self : ref;
  Array_unit : ref;
  Array_grid_shape : Z * Z;
  Array_pitch : pyval
}.

(** [shapely.geometry.MultiPolygon(seq)]: the members are to be polygons, or
    sequences of coordinates.  An empty sequence gives the empty collection;
    the members line 123 hands over are pattern objects, which are neither,
    and the constructor refuses them. *)
Definition MultiPolygon (members : list ref) : M (list polygon) :=
  match members with
  | [] => ret []
  | _ :: _ => raise TypeError
  end.

(** The comprehension of lines 123 to 125: one translated copy of the unit per
    cell of the grid, the row index outside. *)
Definition Array_copies (unit : ref) (grid_shape : Z * Z) (pitch : pyval) : M (list ref) :=
  mapM (fun ij : Z * Z =>
          let! c := Pattern_copy unit in
          let! dx := lift (int_mul (fst ij) pitch) in
          let! dy := lift (int_mul (snd ij) pitch) in
          Pattern_translate_values c dx dy)
       (i ← range (fst grid_shape); j ← range (snd grid_shape); [(i, j)]).

Definition Array_post_init (unit : ref) (grid_shape : Z * Z) (pitch : pyval) : M Array :=
  let pitch := if isinstance_float pitch then PyTuple [pitch; pitch] else pitch in
  let! copies := Array_copies unit grid_shape pitch in
  let! geometry := MultiPolygon copies in
  let! self := Pattern_of_polygons geometry in
  ret (mkArray self unit grid_shape pitch).

(** ** Devices *)

(** An entry handed to [Device.__init__]: a (pattern, layer) pair or a whole
    sub-device. *)
Inductive entry : Type :=
| Tagged (p : ref) (layer : string)
| SubDevice (d : ref).

(** Modelled from the spec: [Device.__init__(name, entries)] keeps the tagged
    patterns in order; a sub-device contributes its own tagged patterns; no
    port is re-exposed by default. *)
Definition Device_init (name : string) (entries : list entry) : M ref :=
  let! tagged := mapM (fun e => match e with
                                | Tagged p layer => ret [(p, Some layer)]
                                | SubDevice d => let! dev := get_device d in
                                                 ret (pattern_to_layer dev)
                                end) entries in
  new_device (mkDevice name (concat tagged) ∅).

Definition dport_setitem (self : ref) (key : string) (l : ref) : M unit :=
  let! d := get_device self in
  set_device self (mkDevice (dname d) (pattern_to_layer d) (<[key := l]> (dport d))).

Definition dport_getitem (self : ref) (key : string) : M ref :=
  let! d := get_device self in getitem (dport d) key.

Definition set_dport_dict (self : ref) (ports : gmap string ref) : M unit :=
  let! d := get_device self in
  set_device self (mkDevice (dname d) (pattern_to_layer d) ports).

(** Modelled from the spec: a device transform is delegated to every member
    pattern and applied to the device's own ports. *)
Definition Device_polygons (self : ref) : M (list polygon) :=
  let! d := get_device self in
  let! ps := mapM (fun e : ref * option string => get_pattern (fst e)) (pattern_to_layer d) in
  ret (concat (map polygons ps)).

Definition Device_translate (self : ref) (dx dy : R) : M ref :=
  let! d := get_device self in
  let! _ := mapM (fun e : ref * option string => Pattern_translate (fst e) dx dy)
                 (pattern_to_layer d) in
  let! _ := update_ports (translate_port dx dy) (port_refs (dport d)) in
  ret self.

Definition Device_rotate (self : ref) (deg : R) : M ref :=
  let! d := get_device self in
  let! _ := mapM (fun e : ref * option string => Pattern_rotate (fst e) deg)
                 (pattern_to_layer d) in
  let! _ := update_ports (rotate_port deg) (port_refs (dport d)) in
  ret self.

(** Modelled from the spec: [halign] of a device, on the bounding box of all
    its member patterns. *)
Definition Device_halign (self : ref) (x : R) (left : bool) : M ref :=
  let! ps := Device_polygons self in
  let '(minx, _, maxx, _) := bounds ps in
  Device_translate self (x - (if left then minx else maxx)) 0.

(** Modelled from the spec: [copy] of a device deep-copies its member patterns
    and its ports. *)
Definition Device_copy (self : ref) : M ref :=
  let! d := get_device self in
  let! members := mapM (fun e : ref * option string =>
                          let! c := Pattern_copy (fst e) in ret (c, snd e))
                       (pattern_to_layer d) in
  let! ports := copy_port_dict (dport d) in
  new_device (mkDevice (dname d) members ports).

(** Modelled from the spec: [to(port)] of a device docks its port a0 onto the
    target, as for a pattern. *)
Definition Device_to (self : ref) (target : ref) : M ref :=
  let! a0 := dport_getitem self "a0" in
  let! t := get_port target in
  let! p0 := get_port a0 in
  let! _ := Device_rotate self (pa t - pa p0 + 180) in
  let! p1 := get_port a0 in
  Device_translate self (px t - px p1) (py t - py p1).

(** ** WaveguideDevice *)

Record WaveguideDevice : Type := mkWaveguideDevice {
  WaveguideDevice_self : ref;
  ridge_waveguide : ref;
  slab_waveguide : option ref
}.

Definition WaveguideDevice_post_init (ridge_waveguide : ref) (slab_waveguide : option ref)
    (ridge slab name : string) : M WaveguideDevice :=
  let pattern_to_layer := [Tagged ridge_waveguide ridge] in
  let pattern_to_layer :=
    pattern_to_layer ++ match slab_waveguide with
                        | Some sw => [Tagged sw slab]
                        | None => []
                        end in
  let! self := Device_init name pattern_to_layer in
  let! r_a0 := port_getitem ridge_waveguide "a0" in
  let! a0 := Port_copy r_a0 in
  let! r_b0 := port_getitem ridge_waveguide "b0" in
  let! b0 := Port_copy r_b0 in
  let! _ := set_dport_dict self (<["b0" := b0]> (<["a0" := a0]> ∅)) in
  ret (mkWaveguideDevice self ridge_waveguide slab_waveguide).

(** ** Gratings *)

(** Modelled from the spec: the derived-geometry helpers of [Pattern].  [Box]
    is the rectangle of an extent, [hstack] moves the pattern next to another
    one, [buffer] and [striped] return a new pattern. *)
Definition Box (extent : R * R) : M ref := Pattern_of_polygons (box_of extent).

Definition Pattern_hstack (self other : ref) : M ref :=
  let! p := get_pattern self in
  let! o := get_pattern other in
  Pattern_translate self (fst (hstack_shift (polygons p) (polygons o)))
                         (snd (hstack_shift (polygons p) (polygons o))).

Definition Pattern_buffer (self : ref) (distance : R) : M ref :=
  let! p := get_pattern self in
  Pattern_of_polygons (buffer_of distance (polygons p)).

Definition Pattern_striped (self : ref) (stripe_w : R) (pitch : R * R) : M ref :=
  let! p := get_pattern self in
  Pattern_of_polygons (striped_of stripe_w pitch (polygons p)).

Record StraightGrating_fields : Type := mkStraightGrating_fields {
  sg_extent : R * R;
  sg_waveguide : ref;
  sg_pitch : R;
  sg_duty_cycle : R;
  sg_rib_grow : R;
  sg_num_periods : option Z;
  sg_name : string;
  sg_ridge : string;
  sg_slab : string
}.

Record StraightGrating : Type := mkStraightGrating {
  StraightGrating_self : ref;
  StraightGrating_attrs : StraightGrating_fields;
  stripe_w : R
}.

Definition StraightGrating_post_init (f : StraightGrating_fields) : M StraightGrating :=
  let stripe_w := sg_pitch f * (1 - sg_duty_cycle f) in
  let! box1 := Box (sg_extent f) in
  let! stacked1 := Pattern_hstack box1 (sg_waveguide f) in
  let! slab := Pattern_buffer stacked1 (sg_rib_grow f) in
  let! box2 := Box (sg_extent f) in
  let! stacked2 := Pattern_hstack box2 (sg_waveguide f) in
  let! grating := Pattern_striped stacked2 stripe_w (sg_pitch f, 0) in
  let! self := Device_init (sg_name f)
                 [Tagged slab (sg_slab f); Tagged grating (sg_ridge f);
                  Tagged (sg_waveguide f) (sg_ridge f)] in
  let! w_a0 := port_getitem (sg_waveguide f) "a0" in
  let! a0 := Port_copy w_a0 in
  let! _ := dport_setitem self "a0" a0 in
  ret (mkStraightGrating self f stripe_w).

(** Modelled from the spec: [parametric.grating_arc], the arc of one grating
    period; a duty cycle outside the open interval (0, 1) is rejected.  The
    result is a pattern that remembers its curve. *)
Definition grating_arc (angle duty_cycle n_core n_clad fiber_angle wavelength : R)
    (m : Z) (num_evaluations : Z) : M (ref * Curve) :=
  if Rle_dec duty_cycle 0 then raise ValueError
  else if Rle_dec 1 duty_cycle then raise ValueError
  else
    let c := GratingArc angle duty_cycle n_core n_clad fiber_angle wavelength m num_evaluations in
    let! p := Pattern_of_polygons (arc_polygons c) in
    ret (p, c).

(** [range(a, b)] *)
Definition range_from (a b : Z) : list Z :=
  map (fun k => (a + Z.of_nat k)%Z) (seq 0 (Z.to_nat (b - a))).

(** [l[0]] *)
Definition first {A} (l : list A) : M A :=
  match l with
  | [] => raise IndexError
  | a :: _ => ret a
  end.

Record FocusingGrating_fields : Type := mkFocusingGrating_fields {
  fg_angle : R;
  fg_waveguide_w : R;
  fg_waveguide_l : R;
  fg_n_clad : R;
  fg_n_core : R;
  fg_min_period : Z;
  fg_num_periods : Z;
  fg_wavelength : R;
  fg_fiber_angle : R;
  fg_duty_cycle : R;
  fg_grating_frac : R;
  fg_num_evaluations : Z;
  fg_rib_grow : R;
  fg_name : string;
  fg_ridge : string;
  fg_slab : string
}.

Record FocusingGrating : Type := mkFocusingGrating {
  FocusingGrating_self : ref;
  FocusingGrating_attrs : FocusingGrating_fields;
  FocusingGrating_waveguide : WaveguideDevice
}.

(** The stub of a focusing grating: a short straight waveguide, moved so that
    its right edge is at the offset computed from its port b0 and the opening
    angle. *)
Definition FocusingGrating_stub (f : FocusingGrating_fields) : M WaveguideDevice :=
  let! stub_curve := straight (fg_waveguide_l f) in
  let! stub := path stub_curve (fg_waveguide_w f) in
  let! waveguide := WaveguideDevice_post_init stub None (fg_ridge f) (fg_slab f) "rib_wg" in
  let! w_b0 := dport_getitem (WaveguideDevice_self waveguide) "b0" in
  let! b0 := get_port w_b0 in
  let! _ := Device_halign (WaveguideDevice_self waveguide)
              (Rabs (pw b0 / tan (radians (fg_angle f) / 2))) false in
  ret waveguide.

Definition FocusingGrating_post_init (f : FocusingGrating_fields) : M FocusingGrating :=
  let! grating_arcs :=
    mapM (fun m => grating_arc (fg_angle f) (fg_duty_cycle f) (fg_n_core f) (fg_n_clad f)
                               (fg_fiber_angle f) (fg_wavelength f) m (fg_num_evaluations f))
         (range_from (fg_min_period f) (fg_min_period f + fg_num_periods f)) in
  let! arc0 := first grating_arcs in
  let! geom0 := first (curve_geoms (snd arc0)) in
  let! sector := Pattern_of_polygons [(0, 0) :: geom0] in
  let! grating := Pattern_init (map fst grating_arcs ++ [sector]) in
  let! waveguide := FocusingGrating_stub f in
  let! buffered := Pattern_buffer grating (fg_rib_grow f) in
  let! self := Device_init (fg_name f)
                 [Tagged buffered (fg_slab f); Tagged grating (fg_ridge f);
                  SubDevice (WaveguideDevice_self waveguide)] in
  let! w_a0 := dport_getitem (WaveguideDevice_self waveguide) "a0" in
  let! a0 := Port_copy w_a0 in
  let! _ := dport_setitem self "a0" a0 in
  let! _ := Device_halign self 0 true in
  ret (mkFocusingGrating self f waveguide).

(** ** TapDC *)

(** The dataclass fields: the docstring of the class speaks of [dc] and
    [grating_pad], the declarations are [dc] and [grating]. *)
Record TapDC_fields : Type := mkTapDC_fields {
  TapDC_dc : DC;
  TapDC_grating : ref
}.

Record TapDC : Type := mkTapDC {
  TapDC_self : ref;
  TapDC_attrs : TapDC_fields;
  wg_path : ref
}.

Inductive attr_value : Type :=
| AttrDC (d : DC)
| AttrDevice (g : ref)
| AttrClass (name : string).

(** Modelled from the spec: the names [Pattern] defines for its instances. *)
Definition Pattern_class_attrs : list string :=
  ["translate"; "rotate"; "reflect"; "align"; "halign"; "valign"; "to"; "copy";
   "hstack"; "striped"; "buffer"; "size"; "center"; "polygons"; "bounds"].

(** Attribute lookup on a [TapDC] instance at the start of [__post_init__]:
    the dataclass fields [dc] and [grating], then the names of the class. *)
Definition TapDC_getattr (self : TapDC_fields) (name : string) : M attr_value :=
  if decide (name = "dc") then ret (AttrDC (TapDC_dc self))
  else if decide (name = "grating") then ret (AttrDevice (TapDC_grating self))
  else if decide (name ∈ Pattern_class_attrs ++ ["__post_init__"])
       then ret (AttrClass name)
  else raise (AttributeError name).

Definition as_device (v : attr_value) (attr : string) : M ref :=
  match v with
  | AttrDevice g => ret g
  | _ => raise (AttributeError attr)
  end.

Definition TapDC_post_init (self : TapDC_fields) : M TapDC :=
  let dc := TapDC_dc self in
  let! pad1 := TapDC_getattr self "grating_pad" in
  let! pad1 := as_device pad1 "copy" in
  let! copy1 := Device_copy pad1 in
  let! b1 := port_getitem (DC_self dc) "b1" in
  let! in_grating := Device_to copy1 b1 in
  let! pad2 := TapDC_getattr self "grating_pad" in
  let! pad2 := as_device pad2 "copy" in
  let! copy2 := Device_copy pad2 in
  let! a1 := port_getitem (DC_self dc) "a1" in
  let! out_grating := Device_to copy2 a1 in
  let! dc_pattern := get_pattern (DC_self dc) in
  let! in_polygons := Device_polygons in_grating in
  let! out_polygons := Device_polygons out_grating in
  let! this := Pattern_of_polygons (polygons dc_pattern ++ in_polygons ++ out_polygons) in
  let! a0 := port_getitem (DC_self dc) "a0" in
  let! _ := port_setitem this "a0" a0 in
  let! b0 := port_getitem (DC_self dc) "b0" in
  let! _ := port_setitem this "b0" b0 in
  let! _ := refs_extend this [DC_self dc] in
  ret (mkTapDC this self (lower_path dc)).

End Passive.

(** * Vocabulary of the statements *)

(** What a store says about the ports of a pattern. *)
Definition port_at (s : store) (self : ref) (name : string) : option Port :=
  p ← patterns s !! self; l ← port p !! name; ports s !! l.

(** The names in the port dictionary of a pattern. *)
Definition port_names (s : store) (self : ref) : option (gset string) :=
  p ← patterns s !! self; Some (dom (port p)).

(** The polygons a pattern owns. *)
Definition polygons_at (s : store) (self : ref) : option (list polygon) :=
  p ← patterns s !! self; Some (polygons p).

(** What a store says about the ports of a device. *)
Definition dport_at (s : store) (self : ref) (name : string) : option Port :=
  d ← devices s !! self; l ← dport d !! name; ports s !! l.

(** Two orientations in degrees are opposite when they differ by 180 modulo a
    full turn. *)
Definition opposite (a b : R) : Prop := exists k : Z, a = b + 180 + 360 * IZR k.

(** The store after [port.x = ...] and the like on the port object [l]. *)
Definition assign_port (l : ref) (v : Port) (s : store) : store :=
  mkStore (<[l := v]> (ports s)) (patterns s) (devices s).

(** What one in-place transform does to the store. *)
Definition transformed (fpoly : list polygon -> list polygon) (fport : Port -> Port)
    (l : ref) (p : Pattern) (s : store) : store :=
  mkStore (foldr (fun r ps => alter fport r ps) (ports s) (port_refs (port p)))
          (<[l := mkPattern (fpoly (polygons p)) (port p) (refs p)]> (patterns s))
          (devices s).

(** A store extends another one when it only has more objects. *)
Definition extends (s s' : store) : Prop :=
  (exists K, ports s' = ports s ++ K) /\
  (exists J, patterns s' = patterns s ++ J) /\
  devices s' = devices s.

(** A bounding box moved by (dx, dy). *)
Definition shift_box (dx dy : R) (b : R * R * R * R) : R * R * R * R :=
  let '(minx, miny, maxx, maxy) := b in (minx + dx, miny + dy, maxx + dx, maxy + dy).

(** The pitch after the first statement of [Array.__post_init__] is a tuple
    when a float or a tuple was given. *)
Definition tuple_pitch (pitch : pyval) : Prop :=
  isinstance_float pitch = true \/ exists vs, pitch = PyTuple vs.

(** A duty cycle that is not in the open interval (0, 1). *)
Definition outside_unit_interval (duty_cycle : R) : Prop :=
  duty_cycle <= 0 \/ 1 <= duty_cycle.

(** A store preserves another one when every object of the old one is still
    there, unchanged. *)
Definition preserves (s s' : store) : Prop :=
  (forall l v, ports s !! l = Some v -> ports s' !! l = Some v) /\
  (forall l p, patterns s !! l = Some p -> patterns s' !! l = Some p) /\
  devices s' = devices s.

(** A pattern without sub-patterns whose ports are all in the store. *)
Definition simple_pattern (s : store) (p : Pattern) : Prop :=
  refs p = [] /\ forall k r, port p !! k = Some r -> is_Some (ports s !! r).

(** What a store says about the layers of a device. *)
Definition layers_at (s : store) (self : ref) : option (list (ref * option string)) :=
  d ← devices s !! self; Some (pattern_to_layer d).

(** The names in the port dictionary of a device. *)
Definition dport_names (s : store) (self : ref) : option (gset string) :=
  d ← devices s !! self; Some (dom (dport d)).

(** The cells of the grid of an array, in the order of the comprehension: the
    row index outside, the column index inside. *)
Definition grid_cells (m n : Z) : list (Z * Z) :=
  i ← range m; j ← range n; [(i, j)].

(** One tile of an array with the int pitch [p]. *)
Definition tile (p : Z) (ps : list polygon) (ij : Z * Z) : list polygon :=
  translate_polygons (IZR (fst ij * p)) (IZR (snd ij * p)) ps.

(** The element of the comprehension of [Array.__post_init__] at one cell. *)
Definition Array_cell (unit : ref) (pitch : pyval) (ij : Z * Z) : M ref :=
  let! c := Pattern_copy unit in
  let! dx := lift (int_mul (fst ij) pitch) in
  let! dy := lift (int_mul (snd ij) pitch) in
  Pattern_translate_values c dx dy.

(** A quarter turn about the origin, anticlockwise. *)
Definition quarter_turn (p : point) : point := (- snd p, fst p).

Definition quarter_turn_port (p : Port) : Port :=
  mkPort (- py p) (px p) (pa p + 90) (pw p).

(** The waveguide of a cross once centred: polygons and ports moved by minus
    the centre of the bounding box. *)
Definition centred (b : R * R * R * R) (ps : list polygon) : list polygon :=
  translate_polygons (- fst (center_of b)) (- snd (center_of b)) ps.

Definition centred_port (b : R * R * R * R) (p : Port) : Port :=
  translate_port (- fst (center_of b)) (- snd (center_of b)) p.

(** ** Closed forms of the constructions *)

Section Closed_forms.

Context {G : Geometry}.

(** The port [path] seeds at one end of a trajectory. *)
Definition end_port (e : point * R) (w : R) : Port :=
  mkPort (fst (fst e)) (snd (fst e)) (snd e) w.

(** The quantities [DC.__post_init__] derives from the fields. *)
Definition DC_cw (f : DC_fields) : R :=
  match coupler_waveguide_w f with None => waveguide_w f | Some c => c end.

Definition DC_dy (f : DC_fields) : R :=
  (interport_distance f - gap_w f - DC_cw f) / 2.

Definition DC_lower_curve (f : DC_fields) : Curve :=
  Coupler (bend_radius f) (DC_dy f) (interaction_l f) (euler f).

Definition DC_upper_curve (f : DC_fields) : Curve :=
  Coupler (bend_radius f) (- DC_dy f) (interaction_l f) (euler f).

Definition DC_lower_polygons (f : DC_fields) : list polygon :=
  sweep (DC_lower_curve f) (waveguide_w f).

Definition DC_upper_polygons (f : DC_fields) : list polygon :=
  translate_polygons 0 (interport_distance f) (sweep (DC_upper_curve f) (waveguide_w f)).

(** The objects a successful construction adds to the store: [n] ports and
    [m] patterns exist beforehand, [sx] is the width of the bounding box. *)
Definition DC_new_ports (f : DC_fields) (sx : R) : list Port :=
  let w := waveguide_w f in
  let D := interport_distance f in
  [ end_port (fst (curve_ends (DC_lower_curve f))) w;
    end_port (snd (curve_ends (DC_lower_curve f))) w;
    translate_port 0 D (end_port (fst (curve_ends (DC_upper_curve f))) w);
    translate_port 0 D (end_port (snd (curve_ends (DC_upper_curve f))) w);
    mkPort 0 0 (-180) w; mkPort 0 D (-180) w; mkPort sx 0 0 w; mkPort sx D 0 w;
    mkPort 0 0 (-180) w; mkPort sx 0 0 w; mkPort 0 D (-180) w; mkPort sx D 0 w ].

Definition DC_new_patterns (f : DC_fields) (n m : nat) : list Pattern :=
  [ mkPattern (DC_lower_polygons f)
      (<["b0" := (n + 9)%nat]> (<["a0" := (n + 8)%nat]> ∅)) [];
    mkPattern (DC_upper_polygons f)
      (<["b0" := (n + 11)%nat]> (<["a0" := (n + 10)%nat]> ∅)) [];
    mkPattern (DC_lower_polygons f ++ DC_upper_polygons f)
      (<["b1" := (n + 7)%nat]> (<["b0" := (n + 6)%nat]>
         (<["a1" := (n + 5)%nat]> (<["a0" := (n + 4)%nat]> ∅))))
      [(m + 0)%nat; (m + 1)%nat] ].

Definition DC_object (f : DC_fields) (m : nat) : DC :=
  mkDC (m + 2)%nat (set_coupler_waveguide_w f (DC_cw f)) (m + 0)%nat (m + 1)%nat.

Definition stub_polygons (f : FocusingGrating_fields) : list polygon :=
  sweep (Straight (fg_waveguide_l f)) (fg_waveguide_w f).

(** The x coordinate [FocusingGrating.__post_init__] hands to [halign]. *)
Definition stub_offset (f : FocusingGrating_fields) : R :=
  Rabs (fg_waveguide_w f / tan (radians (fg_angle f) / 2)).

(** The objects the stub adds to a store with [n] ports and [m] patterns, when
    the right edge of the swept stub was at [maxx]. *)
Definition stub_new_ports (f : FocusingGrating_fields) (maxx : R) : list Port :=
  let a := end_port (fst (curve_ends (Straight (fg_waveguide_l f)))) (fg_waveguide_w f) in
  let b := end_port (snd (curve_ends (Straight (fg_waveguide_l f)))) (fg_waveguide_w f) in
  let move := translate_port (stub_offset f - maxx) 0 in
  [move a; move b; move a; move b].

Definition stub_new_patterns (f : FocusingGrating_fields) (n : nat) (maxx : R) : list Pattern :=
  [ mkPattern (translate_polygons (stub_offset f - maxx) 0 (stub_polygons f))
      (<["b0" := (n + 1)%nat]> (<["a0" := (n + 0)%nat]> ∅)) [] ].

Definition stub_new_devices (f : FocusingGrating_fields) (n m : nat) : list Device :=
  [ mkDevice "rib_wg" [((m + 0)%nat, Some (fg_ridge f))]
      (<["b0" := (n + 3)%nat]> (<["a0" := (n + 2)%nat]> ∅)) ].

(** The extent box of a straight grating, moved next to the waveguide. *)
Definition stacked_box (f : StraightGrating_fields) (p : Pattern) : list polygon :=
  translate_polygons (fst (hstack_shift (box_of (sg_extent f)) (polygons p)))
                     (snd (hstack_shift (box_of (sg_extent f)) (polygons p)))
                     (box_of (sg_extent f)).

Definition StraightGrating_new_patterns (f : StraightGrating_fields) (p : Pattern) :
    list Pattern :=
  [ mkPattern (stacked_box f p) ∅ [];
    mkPattern (buffer_of (sg_rib_grow f) (stacked_box f p)) ∅ [];
    mkPattern (stacked_box f p) ∅ [];
    mkPattern (striped_of (sg_pitch f * (1 - sg_duty_cycle f)) (sg_pitch f, 0)
                 (stacked_box f p)) ∅ [] ].

Definition StraightGrating_new_devices (f : StraightGrating_fields) (n m : nat) :
    list Device :=
  [ mkDevice (sg_name f)
      [((m + 1)%nat, Some (sg_slab f)); ((m + 3)%nat, Some (sg_ridge f));
       (sg_waveguide f, Some (sg_ridge f))]
      (<["a0" := (n + 0)%nat]> ∅) ].

End Closed_forms.

(** ** A concrete instance of the collaborators

    Every trajectory is a straight segment along the x axis and the polygon
    algebra leaves its argument alone.  The instance serves to run the
    constructors on concrete inputs. *)

Definition rectangle (x0 y0 x1 y1 : R) : polygon :=
  [(x0, y0); (x1, y0); (x1, y1); (x0, y1)].

Definition curve_length (c : Curve) : R :=
  match c with
  | Straight l => l
  | Coupler _ _ interaction_l _ => interaction_l
  | GratingArc _ _ _ _ _ _ _ _ => 1
  end.

Definition segment_geometry : Geometry := {|
  sweep c w := [rectangle 0 (- w / 2) (curve_length c) (w / 2)];
  curve_ends c := (((0, 0), 180), ((curve_length c, 0), 0));
  curve_geoms c := [[(0, 0); (curve_length c, 0)]];
  buffer_of _ ps := ps;
  striped_of _ _ ps := ps;
  hstack_shift _ _ := (0, 0);
  box_of e := [rectangle 0 0 (fst e) (snd e)];
  arc_polygons _ := [rectangle 0 0 1 1];
  empty_bounds := (0, 0, 0, 0)
|}.

(** ** Concrete inputs *)

(** A coupler of width 1 with bend radius 5, interport distance 4, gap 1 and
    interaction length 10. *)
Definition DC_example : DC_fields := mkDC_fields 1 5 4 1 10 (1/5) 0 None false.

Definition DC_example_store : store :=
  mkStore (DC_new_ports (G := segment_geometry) DC_example 10)
          (DC_new_patterns (G := segment_geometry) DC_example 0 0) [].

(** A coupler whose gap (3) exceeds its interport distance (2). *)
Definition DC_wide_gap : DC_fields := mkDC_fields 1 5 2 3 10 (1/5) 0 None false.

(** A straight waveguide of length 10 and width 1, as [path] leaves it in an
    empty store. *)
Definition waveguide_pattern : Pattern :=
  mkPattern [rectangle 0 (- 1 / 2) 10 (1 / 2)] (<["b0" := 1%nat]> (<["a0" := 0%nat]> ∅)) [].

Definition waveguide_store : store :=
  mkStore [mkPort 0 0 180 1; mkPort 10 0 0 1] [waveguide_pattern] [].

(** A focusing grating of opening angle 90 degrees on a waveguide of width 1
    and length 10. *)
Definition FocusingGrating_example : FocusingGrating_fields :=
  mkFocusingGrating_fields 90 1 10 (3/2) (7/2) 10 20 (31/20) 8 (1/2) 1 16 1
    "focusing_grating" "ridge_si" "rib_si".

(** A straight grating with the duty cycle -1 on the waveguide of
    [waveguide_store]. *)
Definition StraightGrating_example : StraightGrating_fields :=
  mkStraightGrating_fields (5, 5) 0%nat 1 (-1) 0 None "straight_grating" "ridge_si" "rib_si".

(** The focusing grating of [FocusingGrating_example] with the duty cycle -1. *)
Definition FocusingGrating_bad_duty_cycle : FocusingGrating_fields :=
  mkFocusingGrating_fields 90 1 10 (3/2) (7/2) 10 20 (31/20) 8 (-1) 1 16 1
    "focusing_grating" "ridge_si" "rib_si".

(** A pattern with the geometry of [waveguide_pattern] and no port, alone in
    its store. *)
Definition portless_pattern : Pattern :=
  mkPattern [rectangle 0 (- 1 / 2) 10 (1 / 2)] ∅ [].

Definition portless_store : store := mkStore [] [portless_pattern] [].

(** A straight grating with the default duty cycle on the waveguide of
    [waveguide_store]. *)
Definition StraightGrating_half_duty : StraightGrating_fields :=
  mkStraightGrating_fields (5, 5) 0%nat 1 (1/2) 0 None "straight_grating" "ridge_si" "rib_si".

(** The focusing grating of [FocusingGrating_example] without any period. *)
Definition FocusingGrating_no_periods : FocusingGrating_fields :=
  mkFocusingGrating_fields 90 1 10 (3/2) (7/2) 10 0 (31/20) 8 (1/2) 1 16 1
    "focusing_grating" "ridge_si" "rib_si".

(** * Symbolic execution in a store that extends a given one *)

Lemma lookup_app_plus {A} (l k : list A) (i : nat) : (l ++ k) !! (length l + i)%nat = k !! i.
Proof. rewrite lookup_app_r by lia. f_equal. lia. Qed.

Lemma insert_app_plus {A} (l k : list A) (i : nat) (x : A) :
  <[(length l + i)%nat := x]> (l ++ k) = l ++ <[i := x]> k.
Proof. rewrite insert_app_r. reflexivity. Qed.

Lemma alter_app_plus {A} (f : A -> A) (l k : list A) (i : nat) :
  alter f (length l + i)%nat (l ++ k) = l ++ alter f i k.
Proof. rewrite alter_app_r. reflexivity. Qed.

Lemma bind_assoc {A B C} (m : M A) (f : A -> M B) (g : B -> M C) s :
  bind (bind m f) g s = bind m (fun x => bind (f x) g) s.
Proof. unfold bind. destruct (m s) as [[v s']|e]; reflexivity. Qed.

Lemma bind_ret {A B} (v : A) (k : A -> M B) s : bind (ret v) k s = k v s.
Proof. reflexivity. Qed.

Lemma bind_new_port {B} p (k : ref -> M B) P K Q D :
  bind (new_port p) k (mkStore (P ++ K) Q D) =
  k (length P + length K)%nat (mkStore (P ++ (K ++ [p])) Q D).
Proof.
  unfold bind, new_port. cbn [ports patterns devices].
  rewrite length_app, <- app_assoc. reflexivity.
Qed.

Lemma bind_get_port {B} l (k : Port -> M B) P K Q D i :
  l = (length P + i)%nat ->
  bind (get_port l) k (mkStore (P ++ K) Q D) =
  match K !! i with
  | Some p => k p (mkStore (P ++ K) Q D)
  | None => Err SystemError
  end.
Proof.
  intros ->. unfold bind, get_port. cbn [ports].
  rewrite lookup_app_plus. destruct (K !! i); reflexivity.
Qed.

Lemma bind_new_pattern {B} p (k : ref -> M B) P Q J D :
  bind (new_pattern p) k (mkStore P (Q ++ J) D) =
  k (length Q + length J)%nat (mkStore P (Q ++ (J ++ [p])) D).
Proof.
  unfold bind, new_pattern. cbn [ports patterns devices].
  rewrite length_app, <- app_assoc. reflexivity.
Qed.

Lemma bind_get_pattern {B} l (k : Pattern -> M B) P Q J D i :
  l = (length Q + i)%nat ->
  bind (get_pattern l) k (mkStore P (Q ++ J) D) =
  match J !! i with
  | Some p => k p (mkStore P (Q ++ J) D)
  | None => Err SystemError
  end.
Proof.
  intros ->. unfold bind, get_pattern. cbn [patterns].
  rewrite lookup_app_plus. destruct (J !! i); reflexivity.
Qed.

Lemma bind_set_pattern {B} l p (k : unit -> M B) P Q J D i :
  l = (length Q + i)%nat ->
  bind (set_pattern l p) k (mkStore P (Q ++ J) D) =
  k tt (mkStore P (Q ++ <[i := p]> J) D).
Proof.
  intros ->. unfold bind, set_pattern. cbn [ports patterns devices].
  rewrite insert_app_plus. reflexivity.
Qed.

Lemma bind_update_ports2 {B} f (k : unit -> M B) P K Q D i j :
  bind (update_ports f [(length P + i)%nat; (length P + j)%nat]) k (mkStore (P ++ K) Q D) =
  k tt (mkStore (P ++ alter f i (alter f j K)) Q D).
Proof.
  unfold bind, update_ports. cbn [ports patterns devices foldr].
  rewrite !alter_app_plus. reflexivity.
Qed.

Lemma bind_getitem {B} d key (k : ref -> M B) s :
  bind (getitem d key) k s =
  match d !! key with
  | Some l => k l s
  | None => Err (KeyError key)
  end.
Proof. unfold getitem. destruct (d !! key); reflexivity. Qed.

Lemma port_refs2 (a b : ref) : port_refs (<["b0" := b]> (<["a0" := a]> ∅)) = [a; b].
Proof. vm_compute. reflexivity. Qed.

Ltac exec_simpl :=
  cbn [length app Nat.add default from_option id lookup list_lookup insert list_insert
       alter list_alter polygons port refs fst snd map concat].

Ltac exec_step :=
  first
    [ rewrite bind_ret
    | rewrite bind_assoc
    | rewrite bind_new_port
    | rewrite bind_new_pattern
    | erewrite bind_get_port by reflexivity
    | erewrite bind_get_pattern by reflexivity
    | erewrite bind_set_pattern by reflexivity
    | rewrite port_refs2
    | rewrite bind_update_ports2
    | rewrite bind_getitem
    | rewrite lookup_insert_eq
    | rewrite lookup_insert_ne by done
    | rewrite (app_nil_r (A := polygon)) ];
  exec_simpl.

(** * The directional coupler *)

Section DC_facts.

Context {G : Geometry}.

(** [DC.__post_init__] in closed form. *)
Lemma DC_post_init_eq (f : DC_fields) (s : store) :
  DC_post_init f s =
  if Rle_dec (bend_radius f) 0 then Err ValueError
  else if Rle_dec (interaction_l f) 0 then Err ValueError
  else Ok (DC_object f (length (patterns s)),
           mkStore (ports s ++
                    DC_new_ports f
                      (fst (size_of (bounds (DC_lower_polygons f ++ DC_upper_polygons f)))))
                   (patterns s ++ DC_new_patterns f (length (ports s)) (length (patterns s)))
                   (devices s)).
Proof.
  destruct s as [P Q D]. cbn [ports patterns devices].
  rewrite <- (app_nil_r P) at 1. rewrite <- (app_nil_r Q) at 1.
  unfold DC_post_init, DC_lower_polygons, DC_upper_polygons, DC_lower_curve,
    DC_upper_curve, DC_dy, DC_cw.
  cbn [set_coupler_waveguide_w bend_radius interport_distance gap_w interaction_l
       euler waveguide_w].
  unfold dc.
  destruct (Rle_dec (bend_radius f) 0); [reflexivity|].
  destruct (Rle_dec (interaction_l f) 0); [reflexivity|].
  unfold path, Port_init, Pattern_translate, Pattern_init, port_setitem, port_getitem,
    Port_copy, Pattern_size, Pattern_bounds, set_port_dict, refs_extend.
  cbn [mapM].
  repeat exec_step. reflexivity.
Qed.

(** A successful construction is the closed form above. *)
Lemma DC_post_init_inv (f : DC_fields) (s s' : store) (d : DC) :
  DC_post_init f s = Ok (d, s') ->
  0 < bend_radius f /\ 0 < interaction_l f /\
  (exists bb, bounds (DC_lower_polygons f ++ DC_upper_polygons f) = bb /\
    d = DC_object f (length (patterns s)) /\
    s' = mkStore (ports s ++ DC_new_ports f (fst (size_of bb)))
                 (patterns s ++ DC_new_patterns f (length (ports s)) (length (patterns s)))
                 (devices s)).
Proof.
  rewrite DC_post_init_eq.
  destruct (Rle_dec (bend_radius f) 0); [discriminate|].
  destruct (Rle_dec (interaction_l f) 0); [discriminate|].
  intros [= <- <-]. split; [lra|]. split; [lra|]. eexists. auto.
Qed.

Lemma DC_post_init_run (f : DC_fields) (s : store) bb :
  0 < bend_radius f -> 0 < interaction_l f ->
  bounds_of (DC_lower_polygons f ++ DC_upper_polygons f) = Some bb ->
  DC_post_init f s =
  Ok (DC_object f (length (patterns s)),
      mkStore (ports s ++ DC_new_ports f (fst (size_of bb)))
              (patterns s ++ DC_new_patterns f (length (ports s)) (length (patterns s)))
              (devices s)).
Proof.
  intros Hr Hl Hb. rewrite DC_post_init_eq. unfold bounds. rewrite Hb.
  destruct (Rle_dec (bend_radius f) 0); [lra|].
  destruct (Rle_dec (interaction_l f) 0); [lra|]. reflexivity.
Qed.

Ltac DC_lookup :=
  unfold port_at, port_names, polygons_at, DC_object, DC_new_patterns, DC_new_ports;
  cbn [ports patterns devices DC_self lower_path upper_path];
  rewrite ?lookup_app_plus;
  cbn [lookup list_lookup mbind option_bind polygons port];
  rewrite ?lookup_insert_eq; repeat (rewrite lookup_insert_ne by done);
  rewrite ?lookup_insert_eq;
  cbn [mbind option_bind ports];
  rewrite ?lookup_app_plus.

(** C5: the four ports of a constructed coupler. *)
Theorem DC_ports (f : DC_fields) (s s' : store) (d : DC) :
  DC_post_init f s = Ok (d, s') ->
  exists size_x size_y : R,
    Pattern_size (DC_self d) s' = Ok ((size_x, size_y), s') /\
    port_names s' (DC_self d) = Some {[ "a0"; "a1"; "b0"; "b1" ]} /\
    port_at s' (DC_self d) "a0" = Some (mkPort 0 0 (-180) (waveguide_w f)) /\
    port_at s' (DC_self d) "a1" =
      Some (mkPort 0 (interport_distance f) (-180) (waveguide_w f)) /\
    port_at s' (DC_self d) "b0" = Some (mkPort size_x 0 0 (waveguide_w f)) /\
    port_at s' (DC_self d) "b1" =
      Some (mkPort size_x (interport_distance f) 0 (waveguide_w f)) /\
    (forall a b pa_ pb_, a ∈ ["a0"; "a1"] -> b ∈ ["b0"; "b1"] ->
       port_at s' (DC_self d) a = Some pa_ -> port_at s' (DC_self d) b = Some pb_ ->
       opposite (pa pa_) (pa pb_) /\ pw pa_ = waveguide_w f /\ pw pb_ = waveguide_w f).
Proof.
  intros H. apply DC_post_init_inv in H as (_ & _ & bb & Hbb & -> & ->).
  exists (fst (size_of bb)), (snd (size_of bb)).
  split.
  { unfold Pattern_size, Pattern_bounds, DC_object, DC_new_patterns. cbn [DC_self].
    repeat exec_step. rewrite Hbb. repeat exec_step. unfold ret. destruct (size_of bb); reflexivity. }
  split.
  { DC_lookup. reflexivity. }
  assert (Ha0 : port_at
            (mkStore (ports s ++ DC_new_ports f (fst (size_of bb)))
               (patterns s ++ DC_new_patterns f (length (ports s)) (length (patterns s)))
               (devices s)) (length (patterns s) + 2)%nat "a0" =
          Some (mkPort 0 0 (-180) (waveguide_w f))) by (DC_lookup; reflexivity).
  assert (Ha1 : port_at
            (mkStore (ports s ++ DC_new_ports f (fst (size_of bb)))
               (patterns s ++ DC_new_patterns f (length (ports s)) (length (patterns s)))
               (devices s)) (length (patterns s) + 2)%nat "a1" =
          Some (mkPort 0 (interport_distance f) (-180) (waveguide_w f)))
    by (DC_lookup; reflexivity).
  assert (Hb0 : port_at
            (mkStore (ports s ++ DC_new_ports f (fst (size_of bb)))
               (patterns s ++ DC_new_patterns f (length (ports s)) (length (patterns s)))
               (devices s)) (length (patterns s) + 2)%nat "b0" =
          Some (mkPort (fst (size_of bb)) 0 0 (waveguide_w f))) by (DC_lookup; reflexivity).
  assert (Hb1 : port_at
            (mkStore (ports s ++ DC_new_ports f (fst (size_of bb)))
               (patterns s ++ DC_new_patterns f (length (ports s)) (length (patterns s)))
               (devices s)) (length (patterns s) + 2)%nat "b1" =
          Some (mkPort (fst (size_of bb)) (interport_distance f) 0 (waveguide_w f)))
    by (DC_lookup; reflexivity).
  cbn [DC_object DC_self].
  repeat (split; [assumption|]).
  intros a b pa_ pb_ Ha Hb Hpa Hpb.
  assert (Hopp : opposite (-180) 0) by (exists (-1)%Z; lra).
  rewrite !elem_of_cons, elem_of_nil in Ha, Hb.
  destruct Ha as [-> | [-> | []]]; destruct Hb as [-> | [-> | []]];
    rewrite ?Ha0, ?Ha1 in Hpa; rewrite ?Hb0, ?Hb1 in Hpb;
    injection Hpa as <-; injection Hpb as <-; cbn [pa pw]; auto.
Qed.

(** C7: with [coupler_waveguide_w] unset the coupler width becomes the
    waveguide width, and the two trajectories are built at offsets dy and
    -dy, swept at the waveguide width, the upper one moved up by the
    interport distance. *)
Theorem DC_default_width_and_mirrored_paths (f : DC_fields) (s s' : store) (d : DC) :
  coupler_waveguide_w f = None ->
  DC_post_init f s = Ok (d, s') ->
  let dy := (interport_distance f - gap_w f - waveguide_w f) / 2 in
  coupler_waveguide_w (DC_attrs d) = Some (waveguide_w f) /\
  polygons_at s' (lower_path d) =
    Some (sweep (Coupler (bend_radius f) dy (interaction_l f) (euler f)) (waveguide_w f)) /\
  polygons_at s' (upper_path d) =
    Some (translate_polygons 0 (interport_distance f)
            (sweep (Coupler (bend_radius f) (- dy) (interaction_l f) (euler f))
                   (waveguide_w f))) /\
  polygons_at s' (DC_self d) =
    Some (sweep (Coupler (bend_radius f) dy (interaction_l f) (euler f)) (waveguide_w f) ++
          translate_polygons 0 (interport_distance f)
            (sweep (Coupler (bend_radius f) (- dy) (interaction_l f) (euler f))
                   (waveguide_w f))).
Proof.
  intros Hnone H dy. apply DC_post_init_inv in H as (_ & _ & bb & Hbb & -> & ->).
  assert (Hdy : DC_dy f = dy) by (unfold DC_dy, DC_cw, dy; rewrite Hnone; reflexivity).
  split.
  { cbn. unfold DC_cw. rewrite Hnone. reflexivity. }
  repeat split; DC_lookup; unfold DC_lower_polygons, DC_upper_polygons, DC_lower_curve,
    DC_upper_curve; rewrite Hdy; reflexivity.
Qed.

(** C10: the interaction points of a constructed coupler are the corners of
    the rectangle centred at the centre of the coupler, of extent
    [interaction_l] by [waveguide_w + gap_w], in the order bottom-left,
    top-left, bottom-right, top-right. *)
Theorem interaction_points_rectangle (f : DC_fields) (s s' : store) (d : DC) :
  DC_post_init f s = Ok (d, s') ->
  exists cx cy : R,
    Pattern_center (DC_self d) s' = Ok ((cx, cy), s') /\
    let L := interaction_l f in
    let H := waveguide_w f + gap_w f in
    interaction_points d s' =
      Ok ([ (cx - L / 2, cy - H / 2); (cx - L / 2, cy + H / 2);
            (cx + L / 2, cy - H / 2); (cx + L / 2, cy + H / 2) ], s').
Proof.
  intros H. apply DC_post_init_inv in H as (_ & _ & bb & Hbb & -> & ->).
  exists (fst (center_of bb)), (snd (center_of bb)).
  assert (Hc : Pattern_center (length (patterns s) + 2)%nat
            (mkStore (ports s ++ DC_new_ports f (fst (size_of bb)))
               (patterns s ++ DC_new_patterns f (length (ports s)) (length (patterns s)))
               (devices s)) =
          Ok (center_of bb,
              mkStore (ports s ++ DC_new_ports f (fst (size_of bb)))
               (patterns s ++ DC_new_patterns f (length (ports s)) (length (patterns s)))
               (devices s))).
  { unfold Pattern_center, Pattern_bounds, DC_new_patterns.
    repeat exec_step. rewrite Hbb. repeat exec_step. reflexivity. }
  split.
  { cbn [DC_object DC_self]. rewrite Hc. destruct (center_of bb); reflexivity. }
  intros L H. unfold interaction_points. cbn [DC_object DC_self DC_attrs].
  unfold bind. rewrite Hc. unfold ret, np_sub, np_add, np_div.
  cbn [set_coupler_waveguide_w interaction_l waveguide_w gap_w fst snd].
  fold L. fold H. apply (f_equal Ok). apply (f_equal2 pair); [|reflexivity].
  repeat (apply (f_equal2 cons); [apply pair_equal_spec; split; lra|]). reflexivity.
Qed.

(** C4, as the code has it: the constructor does not compare the gap with the
    interport distance.  With a radius and an interaction length the curve
    generator accepts, and swept geometry that is not empty, a coupler whose
    gap is at least the interport distance is built like any other one, its
    lower trajectory at the offset dy = (interport_distance - gap_w -
    coupler width) / 2, which is then at most minus half the coupler width. *)
Theorem DC_wide_gap_is_constructed (f : DC_fields) (s : store) :
  interport_distance f <= gap_w f ->
  0 < bend_radius f -> 0 < interaction_l f ->
  bounds_of (DC_lower_polygons f ++ DC_upper_polygons f) <> None ->
  exists d s',
    DC_post_init f s = Ok (d, s') /\
    polygons_at s' (lower_path d) =
      Some (sweep (Coupler (bend_radius f) (DC_dy f) (interaction_l f) (euler f))
                  (waveguide_w f)) /\
    polygons_at s' (upper_path d) =
      Some (translate_polygons 0 (interport_distance f)
              (sweep (Coupler (bend_radius f) (- DC_dy f) (interaction_l f) (euler f))
                     (waveguide_w f))) /\
    DC_dy f = (interport_distance f - gap_w f - DC_cw f) / 2 /\
    DC_dy f <= - DC_cw f / 2.
Proof.
  intros Hgap Hr Hl Hb.
  destruct (bounds_of _) as [bb|] eqn:Hbb; [|congruence].
  eexists _, _. split; [apply (DC_post_init_run f s bb); assumption|].
  repeat split; try (DC_lookup; reflexivity).
  unfold DC_dy. lra.
Qed.

End DC_facts.

(** Decide the minima and maxima of a bounding box over concrete numbers,
    innermost first. *)
Ltac no_minmax t :=
  lazymatch t with
  | context [Rmin _ _] => fail
  | context [Rmax _ _] => fail
  | _ => idtac
  end.

Ltac minmax_step :=
  match goal with
  | |- context [Rmin ?a ?b] =>
      no_minmax a; no_minmax b;
      first [rewrite (Rmin_left a b) by lra | rewrite (Rmin_right a b) by lra]
  | |- context [Rmax ?a ?b] =>
      no_minmax a; no_minmax b;
      first [rewrite (Rmax_left a b) by lra | rewrite (Rmax_right a b) by lra]
  end.

Ltac bounds_compute :=
  unfold bounds_of;
  cbn [concat app map foldr fst snd translate_polygons translate_point rectangle];
  repeat minmax_step;
  apply (f_equal Some);
  repeat (apply pair_equal_spec; split); lra.

(** * TapDC *)

Section TapDC_facts.

Context {G : Geometry}.

(** C1 asks for a successful construction; the first statement of
    [TapDC.__post_init__] reads the attribute [grating_pad], which no
    [TapDC] instance has: the dataclass field is called [grating]. *)
Theorem TapDC_post_init_raises (self : TapDC_fields) (s : store) :
  TapDC_post_init self s = Err (AttributeError "grating_pad").
Proof.
  unfold TapDC_post_init, bind.
  assert (H : TapDC_getattr self "grating_pad" s = Err (AttributeError "grating_pad"))
    by reflexivity.
  rewrite H. reflexivity.
Qed.

(** The grating is there, under the name of the field. *)
Lemma TapDC_getattr_grating (self : TapDC_fields) (s : store) :
  TapDC_getattr self "grating" s = Ok (AttrDevice (TapDC_grating self), s).
Proof. reflexivity. Qed.

End TapDC_facts.

(** * Array *)

Section Array_facts.

Context {G : Geometry}.

Lemma range_pos (n : Z) : (1 <= n)%Z -> exists l, range n = 0%Z :: l.
Proof.
  intros Hn. unfold range.
  destruct (Z.to_nat n) as [|k] eqn:E; [lia|].
  cbn. eauto.
Qed.

(** C3 asks for copies translated by (i px, j py); with a float or a pair as
    pitch the code multiplies an int by a tuple, which repeats the tuple, and
    [translate] is handed tuples: every construction on a non-empty grid
    fails, with a [TypeError] as soon as the unit can be copied. *)
Theorem Array_tuple_pitch_raises (unit : ref) (m n : Z) (pitch : pyval) (s : store) :
  (1 <= m)%Z -> (1 <= n)%Z -> tuple_pitch pitch ->
  exists e, Array_post_init unit (m, n) pitch s = Err e /\
            (forall c s1, Pattern_copy unit s = Ok (c, s1) -> e = TypeError).
Proof.
  intros Hm Hn Hp.
  destruct (range_pos m Hm) as (lm & Em), (range_pos n Hn) as (ln & En).
  unfold Array_post_init, Array_copies. cbn [fst snd]. rewrite Em, En.
  cbn [mbind list_bind app].
  assert (Ht : exists vs, (if isinstance_float pitch then PyTuple [pitch; pitch] else pitch)
                          = PyTuple vs).
  { destruct Hp as [Hf | (vs & ->)]; [rewrite Hf|]; eauto. }
  destruct Ht as (vs & ->).
  unfold bind at 1. cbn [mapM]. unfold bind at 1. unfold bind at 1.
  destruct (Pattern_copy unit s) as [[c s1]|e] eqn:Ec.
  - exists TypeError. split; [reflexivity|]. intros; reflexivity.
  - exists e. split; [reflexivity|]. intros; discriminate.
Qed.

End Array_facts.

(** * Inversion of the store operations *)

Lemma bind_inv {A B} (m : M A) (k : A -> M B) s r :
  bind m k s = Ok r -> exists v s1, m s = Ok (v, s1) /\ k v s1 = Ok r.
Proof.
  unfold bind. destruct (m s) as [[v s1]|e]; [|discriminate]. eauto.
Qed.

Lemma ret_inv {A} (v : A) s r s' : ret v s = Ok (r, s') -> r = v /\ s' = s.
Proof. unfold ret. intros [= <- <-]. auto. Qed.

Lemma get_pattern_inv l s p s' :
  get_pattern l s = Ok (p, s') -> patterns s !! l = Some p /\ s' = s.
Proof.
  unfold get_pattern. destruct (patterns s !! l); [|discriminate].
  intros [= <- <-]. auto.
Qed.

Lemma get_port_inv l s p s' :
  get_port l s = Ok (p, s') -> ports s !! l = Some p /\ s' = s.
Proof.
  unfold get_port. destruct (ports s !! l); [|discriminate].
  intros [= <- <-]. auto.
Qed.

Lemma Pattern_translate_inv l dx dy s r s' :
  Pattern_translate l dx dy s = Ok (r, s') ->
  exists p, patterns s !! l = Some p /\ r = l /\
            s' = transformed (translate_polygons dx dy) (translate_port dx dy) l p s.
Proof.
  unfold Pattern_translate. intros H.
  apply bind_inv in H as (p & s1 & Hp & H). apply get_pattern_inv in Hp as [Hp ->].
  exists p. split; [assumption|].
  unfold bind, set_pattern, update_ports, ret in H. cbn in H.
  injection H as <- <-. auto.
Qed.

Lemma Pattern_rotate_inv l deg s r s' :
  Pattern_rotate l deg s = Ok (r, s') ->
  exists p, patterns s !! l = Some p /\ r = l /\
            s' = transformed (rotate_polygons deg) (rotate_port deg) l p s.
Proof.
  unfold Pattern_rotate. intros H.
  apply bind_inv in H as (p & s1 & Hp & H). apply get_pattern_inv in Hp as [Hp ->].
  exists p. split; [assumption|].
  unfold bind, set_pattern, update_ports, ret in H. cbn in H.
  injection H as <- <-. auto.
Qed.

Lemma Pattern_bounds_inv {G : Geometry} l s b s' :
  Pattern_bounds l s = Ok (b, s') ->
  exists p, patterns s !! l = Some p /\ bounds (polygons p) = b /\ s' = s.
Proof.
  unfold Pattern_bounds. intros H.
  apply bind_inv in H as (p & s1 & Hp & H). apply get_pattern_inv in Hp as [Hp ->].
  exists p. split; [assumption|].
  apply ret_inv in H as [-> ->]. auto.
Qed.

Lemma Pattern_align_inv {G : Geometry} l s r s' :
  Pattern_align l s = Ok (r, s') ->
  exists p b, patterns s !! l = Some p /\ bounds (polygons p) = b /\ r = l /\
    s' = transformed (translate_polygons (0 - fst (center_of b)) (0 - snd (center_of b)))
                     (translate_port (0 - fst (center_of b)) (0 - snd (center_of b))) l p s.
Proof.
  unfold Pattern_align, Pattern_center. intros H.
  apply bind_inv in H as (c & s1 & Hc & H).
  apply bind_inv in Hc as (b & s2 & Hb & Hc).
  apply Pattern_bounds_inv in Hb as (p & Hp & Hb & ->).
  apply ret_inv in Hc as [-> ->].
  apply Pattern_translate_inv in H as (p' & Hp' & -> & ->).
  rewrite Hp in Hp'. injection Hp' as <-.
  exists p, b. auto.
Qed.

Lemma port_getitem_inv l key s r s' :
  port_getitem l key s = Ok (r, s') ->
  exists p, patterns s !! l = Some p /\ port p !! key = Some r /\ s' = s.
Proof.
  unfold port_getitem. intros H.
  apply bind_inv in H as (p & s1 & Hp & H). apply get_pattern_inv in Hp as [Hp ->].
  exists p. split; [assumption|].
  unfold getitem in H. destruct (port p !! key); [|discriminate].
  apply ret_inv in H as [-> ->]. auto.
Qed.

Lemma port_setitem_inv l key v s r s' :
  port_setitem l key v s = Ok (r, s') ->
  exists p, patterns s !! l = Some p /\
    s' = mkStore (ports s)
           (<[l := mkPattern (polygons p) (<[key := v]> (port p)) (refs p)]> (patterns s))
           (devices s).
Proof.
  unfold port_setitem. intros H.
  apply bind_inv in H as (p & s1 & Hp & H). apply get_pattern_inv in Hp as [Hp ->].
  exists p. split; [assumption|].
  unfold set_pattern in H. injection H as _ <-. reflexivity.
Qed.

Lemma extends_refl s : extends s s.
Proof. repeat split; try (exists []; rewrite app_nil_r; reflexivity). Qed.

Lemma extends_trans s1 s2 s3 : extends s1 s2 -> extends s2 s3 -> extends s1 s3.
Proof.
  intros ((K1 & H1) & (J1 & H2) & H3) ((K2 & H4) & (J2 & H5) & H6).
  repeat split.
  - exists (K1 ++ K2). rewrite H4, H1, app_assoc. reflexivity.
  - exists (J1 ++ J2). rewrite H5, H2, app_assoc. reflexivity.
  - congruence.
Qed.

Lemma extends_pattern s s' l p :
  extends s s' -> patterns s !! l = Some p -> patterns s' !! l = Some p.
Proof.
  intros (_ & (J & ->) & _) H. apply lookup_app_l_Some. assumption.
Qed.

Lemma extends_length s s' :
  extends s s' -> (length (patterns s) <= length (patterns s'))%nat.
Proof. intros (_ & (J & ->) & _). rewrite length_app. lia. Qed.

Lemma new_port_extends p s l s' : new_port p s = Ok (l, s') -> extends s s'.
Proof.
  unfold new_port. intros [= <- <-]. repeat split; cbn.
  - eauto.
  - exists []. rewrite app_nil_r. reflexivity.
Qed.

Lemma new_pattern_extends p s l s' :
  new_pattern p s = Ok (l, s') ->
  extends s s' /\ l = length (patterns s) /\ patterns s' = patterns s ++ [p] /\
  ports s' = ports s.
Proof.
  unfold new_pattern. intros [= <- <-]. repeat split; cbn.
  - exists []. rewrite app_nil_r. reflexivity.
  - eauto.
Qed.

Lemma Port_copy_extends l s r s' : Port_copy l s = Ok (r, s') -> extends s s'.
Proof.
  unfold Port_copy. intros H.
  apply bind_inv in H as (p & s1 & Hp & H). apply get_port_inv in Hp as [_ ->].
  eapply new_port_extends; eassumption.
Qed.

Lemma mapM_extends {A B} (f : A -> M B) (l : list A) :
  (forall a s b s', a ∈ l -> f a s = Ok (b, s') -> extends s s') ->
  forall s bs s', mapM f l s = Ok (bs, s') -> extends s s'.
Proof.
  induction l as [|a l IH]; intros Hf s bs s' H; cbn [mapM] in H.
  - apply ret_inv in H as [_ ->]. apply extends_refl.
  - apply bind_inv in H as (b & s1 & Hb & H).
    apply bind_inv in H as (bs' & s2 & Hbs & H).
    apply ret_inv in H as [_ ->].
    eapply extends_trans.
    + eapply Hf; [left|eassumption].
    + eapply IH; [|eassumption]. intros; eapply Hf; [right|]; eassumption.
Qed.

Lemma copy_port_dict_extends d s r s' : copy_port_dict d s = Ok (r, s') -> extends s s'.
Proof.
  unfold copy_port_dict. intros H.
  apply bind_inv in H as (kvs & s1 & Hk & H). apply ret_inv in H as [_ ->].
  eapply mapM_extends; [|eassumption].
  intros [k l] s2 b s3 _ Hb. cbn in Hb.
  apply bind_inv in Hb as (l' & s4 & Hc & Hb). apply ret_inv in Hb as [_ ->].
  eapply Port_copy_extends; eassumption.
Qed.

Lemma deepcopy_extends fuel :
  forall l s c s', deepcopy fuel l s = Ok (c, s') ->
    extends s s' /\ (length (patterns s) <= c)%nat /\ (c < length (patterns s'))%nat.
Proof.
  induction fuel as [|n IH]; intros l s c s' H; cbn [deepcopy] in H; [discriminate|].
  apply bind_inv in H as (p & s1 & Hp & H). apply get_pattern_inv in Hp as [Hp ->].
  apply bind_inv in H as (d & s2 & Hd & H). apply copy_port_dict_extends in Hd.
  apply bind_inv in H as (rs & s3 & Hrs & H).
  assert (Hext : extends s2 s3).
  { eapply mapM_extends; [|eassumption]. intros a t b t' _ Hb. apply IH in Hb. tauto. }
  apply new_pattern_extends in H as (He & -> & Hpat & _).
  split; [eauto using extends_trans|].
  split.
  - etransitivity; [apply (extends_length _ _ Hd)|]. apply (extends_length _ _ Hext).
  - rewrite Hpat, length_app. cbn. lia.
Qed.

Lemma Pattern_copy_inv l s c s' :
  Pattern_copy l s = Ok (c, s') ->
  extends s s' /\ (length (patterns s) <= c)%nat /\ (c < length (patterns s'))%nat.
Proof. unfold Pattern_copy. apply deepcopy_extends. Qed.

Lemma mapM_get_pattern_inv (ms : list ref) s ps s' :
  mapM get_pattern ms s = Ok (ps, s') -> s' = s.
Proof.
  revert ps. induction ms as [|a ms IH]; intros ps H; cbn [mapM] in H.
  - apply ret_inv in H as [_ ->]. reflexivity.
  - apply bind_inv in H as (b & s1 & Hb & H). apply get_pattern_inv in Hb as [_ ->].
    apply bind_inv in H as (bs & s2 & Hbs & H). apply ret_inv in H as [_ ->].
    eapply IH; eassumption.
Qed.

Lemma Pattern_init_inv ms s r s' :
  Pattern_init ms s = Ok (r, s') ->
  r = length (patterns s) /\ ports s' = ports s /\ devices s' = devices s /\
  exists ps, patterns s' = patterns s ++ [mkPattern ps ∅ []].
Proof.
  unfold Pattern_init. intros H.
  apply bind_inv in H as (ps & s1 & Hps & H). apply mapM_get_pattern_inv in Hps as ->.
  unfold new_pattern in H. injection H as <- <-. cbn. eauto.
Qed.

(** * Bounding boxes under translation *)

Lemma Rmin_shift (a b d : R) : Rmin (a + d) (b + d) = Rmin a b + d.
Proof. unfold Rmin. destruct (Rle_dec a b), (Rle_dec (a + d) (b + d)); lra. Qed.

Lemma Rmax_shift (a b d : R) : Rmax (a + d) (b + d) = Rmax a b + d.
Proof. unfold Rmax. destruct (Rle_dec a b), (Rle_dec (a + d) (b + d)); lra. Qed.

Lemma foldr_Rmin_shift (d a : R) (l : list R) :
  foldr Rmin (a + d) (map (fun x => x + d) l) = foldr Rmin a l + d.
Proof.
  induction l as [|x l IH]; cbn [map foldr]; [reflexivity|].
  rewrite IH. apply Rmin_shift.
Qed.

Lemma foldr_Rmax_shift (d a : R) (l : list R) :
  foldr Rmax (a + d) (map (fun x => x + d) l) = foldr Rmax a l + d.
Proof.
  induction l as [|x l IH]; cbn [map foldr]; [reflexivity|].
  rewrite IH. apply Rmax_shift.
Qed.

Lemma concat_translate (dx dy : R) (ps : list polygon) :
  concat (translate_polygons dx dy ps) = map (translate_point dx dy) (concat ps).
Proof. unfold translate_polygons. symmetry. apply concat_map. Qed.

Lemma bounds_of_translate (dx dy : R) (ps : list polygon) :
  bounds_of (translate_polygons dx dy ps) = shift_box dx dy <$> bounds_of ps.
Proof.
  unfold bounds_of. rewrite concat_translate.
  destruct (concat ps) as [|p q]; [reflexivity|].
  cbn [map fmap option_fmap option_map shift_box translate_point fst snd].
  rewrite !map_map. cbn [translate_point fst snd].
  assert (Ex : map (fun x : point => fst x + dx) q = map (fun r => r + dx) (map fst q))
    by (rewrite map_map; reflexivity).
  assert (Ey : map (fun x : point => snd x + dy) q = map (fun r => r + dy) (map snd q))
    by (rewrite map_map; reflexivity).
  rewrite Ex, Ey, !foldr_Rmin_shift, !foldr_Rmax_shift. reflexivity.
Qed.

(** On a polygon set with points the bounding-box query is [bounds_of]. *)
Lemma bounds_nonempty {G : Geometry} (ps : list polygon) b :
  bounds_of ps = Some b -> bounds ps = b.
Proof. intros H. unfold bounds. rewrite H. reflexivity. Qed.

Lemma bounds_translate {G : Geometry} (dx dy : R) (ps : list polygon) b :
  bounds_of ps = Some b -> bounds (translate_polygons dx dy ps) = shift_box dx dy b.
Proof. intros H. unfold bounds. rewrite bounds_of_translate, H. reflexivity. Qed.

Lemma translate_polygons_compose (dx dy ex ey fx fy : R) (ps : list polygon) :
  dx + ex = fx -> dy + ey = fy ->
  translate_polygons ex ey (translate_polygons dx dy ps) = translate_polygons fx fy ps.
Proof.
  intros Hx Hy. unfold translate_polygons. rewrite map_map.
  apply map_ext. intros poly. rewrite map_map. apply map_ext. intros [x y].
  unfold translate_point. cbn [fst snd]. apply pair_equal_spec. split; lra.
Qed.

(** A translation that moves at all changes every non-empty polygon set. *)
Lemma translate_polygons_moves (dx dy : R) (ps : list polygon) :
  concat ps <> [] -> (dx, dy) <> (0, 0) -> translate_polygons dx dy ps <> ps.
Proof.
  intros Hne Hd Heq. apply (f_equal (@concat point)) in Heq. rewrite concat_translate in Heq.
  destruct (concat ps) as [|[x y] q]; [congruence|].
  cbn [map translate_point fst snd] in Heq. injection Heq as Hx Hy _.
  apply Hd. apply pair_equal_spec. split; lra.
Qed.

Lemma bounds_of_nonempty (ps : list polygon) b : bounds_of ps = Some b -> concat ps <> [].
Proof. unfold bounds_of. destruct (concat ps); [discriminate|congruence]. Qed.

(** * Cross *)

Lemma bind_Pattern_copy {B} l (k : ref -> M B) s :
  bind (Pattern_copy l) k s = bind (deepcopy (S (length (patterns s))) l) k s.
Proof. reflexivity. Qed.

Lemma map_to_list2 (a b : ref) :
  map_to_list (<["b0" := b]> (<["a0" := a]> (∅ : gmap string ref))) = [("a0", a); ("b0", b)].
Proof. vm_compute. reflexivity. Qed.

Lemma port_refs2' (a b : ref) : port_refs (<["a0" := a]> (<["b0" := b]> ∅)) = [a; b].
Proof. vm_compute. reflexivity. Qed.

Section Cross_facts.

Context {G : Geometry}.

Lemma transformed_patterns_other fpoly fport l p s i :
  i <> l -> patterns (transformed fpoly fport l p s) !! i = patterns s !! i.
Proof. intros H. cbn. apply list_lookup_insert_ne. congruence. Qed.

Lemma transformed_patterns_self fpoly fport l p s q :
  patterns s !! l = Some q ->
  patterns (transformed fpoly fport l p s) !! l =
  Some (mkPattern (fpoly (polygons p)) (port p) (refs p)).
Proof. intros H. cbn. apply list_lookup_insert_eq. eapply lookup_lt_Some; eassumption. Qed.

Lemma transformed_length fpoly fport l p s :
  length (patterns (transformed fpoly fport l p s)) = length (patterns s).
Proof. cbn. apply length_insert. Qed.

Lemma port_setitem_other l key v s r s' i :
  port_setitem l key v s = Ok (r, s') -> i <> l -> patterns s' !! i = patterns s !! i.
Proof.
  intros H Hi. apply port_setitem_inv in H as (p & _ & ->). cbn.
  apply list_lookup_insert_ne. congruence.
Qed.

Lemma port_setitem_self l key v s r s' p :
  port_setitem l key v s = Ok (r, s') -> patterns s !! l = Some p ->
  patterns s' !! l = Some (mkPattern (polygons p) (<[key := v]> (port p)) (refs p)).
Proof.
  intros H Hp. apply port_setitem_inv in H as (p' & Hp' & ->). cbn.
  rewrite Hp in Hp'. injection Hp' as <-.
  apply list_lookup_insert_eq. eapply lookup_lt_Some; eassumption.
Qed.

(** What a successful [Cross.__post_init__] leaves in the store: the caller's
    waveguide, aligned twice in place, and the new pattern whose ports a0 and
    b0 are the very port objects of that waveguide. *)
Lemma Cross_post_init_inv (wg : ref) (s s' : store) (c : Cross) :
  Cross_post_init wg s = Ok (c, s') ->
  exists p b b' q h_a0 h_b0,
    patterns s !! wg = Some p /\
    bounds (polygons p) = b /\
    bounds (translate_polygons (0 - fst (center_of b)) (0 - snd (center_of b))
              (polygons p)) = b' /\
    patterns s' !! wg =
      Some (mkPattern
              (translate_polygons (0 - fst (center_of b')) (0 - snd (center_of b'))
                 (translate_polygons (0 - fst (center_of b)) (0 - snd (center_of b))
                    (polygons p)))
              (port p) (refs p)) /\
    Cross_waveguide c = wg /\ Cross_self c <> wg /\
    patterns s' !! Cross_self c = Some q /\
    port p !! "a0" = Some h_a0 /\ port q !! "a0" = Some h_a0 /\
    port p !! "b0" = Some h_b0 /\ port q !! "b0" = Some h_b0.
Proof.
  unfold Cross_post_init. intros H.
  apply bind_inv in H as (horizontal & s1 & H1 & H).
  apply Pattern_align_inv in H1 as (p & b & Hp & Hb & -> & ->).
  apply bind_inv in H as (aligned & s2 & H2 & H).
  apply Pattern_align_inv in H2 as (p1 & b' & Hp1 & Hb' & -> & ->).
  rewrite (transformed_patterns_self _ _ _ _ _ _ Hp) in Hp1. injection Hp1 as <-.
  cbn [polygons port refs] in *.
  set (s1 := transformed _ _ wg p s) in *.
  set (p1 := mkPattern _ (port p) (refs p)) in *.
  set (s2 := transformed _ _ wg p1 s1) in *.
  assert (Hwg : (wg < length (patterns s))%nat) by (eapply lookup_lt_Some; eassumption).
  assert (Hlen2 : length (patterns s2) = length (patterns s)).
  { unfold s2, s1. rewrite !transformed_length. reflexivity. }
  assert (Hp2 : patterns s2 !! wg =
                Some (mkPattern (translate_polygons (0 - fst (center_of b')) (0 - snd (center_of b')) (polygons p1)) (port p) (refs p))).
  { unfold s2. erewrite transformed_patterns_self; [reflexivity|].
    unfold s1. eapply transformed_patterns_self. eassumption. }
  apply bind_inv in H as (copied & s3 & H3 & H).
  apply Pattern_copy_inv in H3 as (Hext & Hc1 & Hc2).
  apply bind_inv in H as (vertical & s4 & H4 & H).
  apply Pattern_rotate_inv in H4 as (pc & Hpc & -> & ->).
  apply bind_inv in H as (self & s5 & H5 & H).
  apply Pattern_init_inv in H5 as (-> & Hports5 & Hdev5 & ps & Hpat5).
  rewrite transformed_length in *.
  set (s3' := transformed _ _ copied pc s3) in *.
  assert (Hne : copied <> wg) by lia.
  assert (Hp3 : patterns s3 !! wg = Some (mkPattern (translate_polygons (0 - fst (center_of b')) (0 - snd (center_of b')) (polygons p1)) (port p) (refs p)))
    by (eapply extends_pattern; eassumption).
  assert (Hp4 : patterns s3' !! wg = patterns s3 !! wg)
    by (unfold s3'; apply transformed_patterns_other; congruence).
  assert (Hlen3 : (wg < length (patterns s3))%nat) by (eapply lookup_lt_Some; eassumption).
  assert (Hlen4 : length (patterns s3') = length (patterns s3))
    by (unfold s3'; apply transformed_length).
  assert (Hself : length (patterns s3) <> wg) by lia.
  assert (Hp5 : patterns s5 !! wg = Some (mkPattern (translate_polygons (0 - fst (center_of b')) (0 - snd (center_of b')) (polygons p1)) (port p) (refs p))).
  { rewrite Hpat5. rewrite lookup_app_l by lia. exact (eq_trans Hp4 Hp3). }
  assert (Hq5 : patterns s5 !! length (patterns s3) = Some (mkPattern ps ∅ [])).
  { rewrite Hpat5, <- Hlen4. apply list_lookup_middle. reflexivity. }
  apply bind_inv in H as (h_a0 & s6 & H6 & H).
  apply port_getitem_inv in H6 as (pa & Hpa & Ha0 & ->).
  rewrite Hp5 in Hpa. injection Hpa as <-. cbn [port] in Ha0.
  apply bind_inv in H as (u1 & s6 & H7 & H).
  pose proof (port_setitem_other _ _ _ _ _ _ wg H7 ltac:(congruence)) as Hp6.
  pose proof (port_setitem_self _ _ _ _ _ _ _ H7 Hq5) as Hq6.
  rewrite Hp5 in Hp6. cbn [polygons port refs] in Hq6.
  apply bind_inv in H as (v_a0 & s7 & H8 & H).
  apply port_getitem_inv in H8 as (_ & _ & _ & ->).
  apply bind_inv in H as (u2 & s7 & H9 & H).
  pose proof (port_setitem_other _ _ _ _ _ _ wg H9 ltac:(congruence)) as Hp7.
  pose proof (port_setitem_self _ _ _ _ _ _ _ H9 Hq6) as Hq7.
  rewrite Hp6 in Hp7. cbn [polygons port refs] in Hq7.
  apply bind_inv in H as (h_b0 & s8 & H10 & H).
  apply port_getitem_inv in H10 as (pb & Hpb & Hb0 & ->).
  rewrite Hp7 in Hpb. injection Hpb as <-. cbn [port] in Hb0.
  apply bind_inv in H as (u3 & s8 & H11 & H).
  pose proof (port_setitem_other _ _ _ _ _ _ wg H11 ltac:(congruence)) as Hp8.
  pose proof (port_setitem_self _ _ _ _ _ _ _ H11 Hq7) as Hq8.
  rewrite Hp7 in Hp8. cbn [polygons port refs] in Hq8.
  apply bind_inv in H as (v_b0 & s9 & H12 & H).
  apply port_getitem_inv in H12 as (_ & _ & _ & ->).
  apply bind_inv in H as (u4 & s9 & H13 & H).
  pose proof (port_setitem_other _ _ _ _ _ _ wg H13 ltac:(congruence)) as Hp9.
  pose proof (port_setitem_self _ _ _ _ _ _ _ H13 Hq8) as Hq9.
  rewrite Hp8 in Hp9. cbn [polygons port refs] in Hq9.
  apply ret_inv in H as [-> ->].
  exists p, b, b'. eexists _, h_a0, h_b0.
  cbn [Cross_self Cross_waveguide].
  repeat (split; [first [eassumption | reflexivity]|]).
  cbn [port].
  rewrite lookup_insert_ne by done. apply lookup_insert_eq.
Qed.

(** C6 asks that the caller's waveguide is left as it was; [align()] is applied
    to the waveguide itself before any copy is taken, so after construction
    the caller's pattern is the one centred at the origin, and it has moved
    whenever its centre was not the origin. *)
Theorem Cross_moves_caller_waveguide (wg : ref) (s s' : store) (c : Cross)
    (p : Pattern) (b : R * R * R * R) :
  patterns s !! wg = Some p ->
  bounds_of (polygons p) = Some b ->
  center_of b <> (0, 0) ->
  Cross_post_init wg s = Ok (c, s') ->
  polygons_at s' wg =
    Some (translate_polygons (- fst (center_of b)) (- snd (center_of b)) (polygons p)) /\
  polygons_at s' wg <> polygons_at s wg.
Proof.
  intros Hp Hb Hc H.
  apply Cross_post_init_inv in H
    as (p0 & b0 & b' & q & h_a0 & h_b0 & Hp0 & Hb0 & Hb' & Hwg & _).
  rewrite Hp in Hp0. injection Hp0 as <-.
  rewrite (bounds_nonempty _ _ Hb) in Hb0. subst b0.
  rewrite (bounds_translate _ _ _ _ Hb) in Hb'. subst b'.
  assert (Hpoly : polygons_at s' wg =
    Some (translate_polygons (- fst (center_of b)) (- snd (center_of b)) (polygons p))).
  { unfold polygons_at. rewrite Hwg. cbn. f_equal.
    apply translate_polygons_compose;
      destruct b as [[[minx miny] maxx] maxy]; cbn; lra. }
  split; [assumption|].
  rewrite Hpoly. unfold polygons_at. rewrite Hp. cbn. intros [= Heq].
  revert Heq. apply translate_polygons_moves.
  - eapply bounds_of_nonempty; eassumption.
  - intros [= Hx Hy]. apply Hc. destruct (center_of b) as [cx cy].
    cbn in Hx, Hy. apply pair_equal_spec. split; lra.
Qed.

(** C9 asks that the ports of a composite are copies; those of a [Cross] are
    the port objects of the caller's waveguide themselves: whatever is
    assigned to the port a0 or b0 of the cross is read back from the
    waveguide. *)
Theorem Cross_ports_are_shared (wg : ref) (s s' : store) (c : Cross) (name : string) :
  name = "a0" \/ name = "b0" ->
  Cross_post_init wg s = Ok (c, s') ->
  Cross_self c <> wg /\
  exists q w l,
    patterns s' !! Cross_self c = Some q /\ patterns s' !! wg = Some w /\
    port q !! name = Some l /\ port w !! name = Some l /\
    forall v, (l < length (ports s'))%nat ->
      port_at (assign_port l v s') (Cross_self c) name = Some v /\
      port_at (assign_port l v s') wg name = Some v.
Proof.
  intros Hname H.
  apply Cross_post_init_inv in H
    as (p & b & b' & q & h_a0 & h_b0 & Hp & Hb & Hb' & Hwg & _ & Hne & Hq & Ha & Ha' & Hb0 & Hb0').
  split; [assumption|].
  assert (Hl : exists l, port q !! name = Some l /\ port p !! name = Some l)
    by (destruct Hname as [-> | ->]; eauto).
  destruct Hl as (l & Hql & Hpl).
  eexists q, _, l. split; [assumption|]. split; [eassumption|]. cbn [port].
  repeat split; try assumption.
  - unfold port_at, assign_port. cbn [patterns ports]. rewrite Hq. cbn [mbind option_bind].
    rewrite Hql. cbn [mbind option_bind]. apply list_lookup_insert_eq. assumption.
  - unfold port_at, assign_port. cbn [patterns ports]. rewrite Hwg. cbn [mbind option_bind port].
    rewrite Hpl. cbn [mbind option_bind]. apply list_lookup_insert_eq. assumption.
Qed.

Lemma Cross_runs P Q D ps b pa_ pb_ :
  bounds_of ps = Some b ->
  exists c s',
    Cross_post_init (length Q + 0)%nat
      (mkStore (P ++ [pa_; pb_])
         (Q ++ [mkPattern ps (<["b0" := (length P + 1)%nat]> (<["a0" := (length P + 0)%nat]> ∅)) []])
         D) = Ok (c, s').
Proof.
  intros Hb. eexists _, _.
  unfold Cross_post_init, Pattern_align, Pattern_center, Pattern_bounds, Pattern_translate,
    Pattern_rotate, Pattern_init, port_getitem, port_setitem.
  repeat exec_step.
  rewrite bind_Pattern_copy. cbn [deepcopy]. unfold copy_port_dict, Port_copy.
  repeat (exec_step || rewrite map_to_list2 || rewrite port_refs2' ||
          (progress (cbn [mapM list_to_map foldr fst snd]))).
  reflexivity.
Qed.

End Cross_facts.

(** * Devices in an extended store *)

Lemma bind_new_device {B} d (k : ref -> M B) P Q D E :
  bind (new_device d) k (mkStore P Q (D ++ E)) =
  k (length D + length E)%nat (mkStore P Q (D ++ (E ++ [d]))).
Proof.
  unfold bind, new_device. cbn [ports patterns devices].
  rewrite length_app, <- app_assoc. reflexivity.
Qed.

Lemma bind_get_device {B} l (k : Device -> M B) P Q D E i :
  l = (length D + i)%nat ->
  bind (get_device l) k (mkStore P Q (D ++ E)) =
  match E !! i with
  | Some d => k d (mkStore P Q (D ++ E))
  | None => Err SystemError
  end.
Proof.
  intros ->. unfold bind, get_device. cbn [devices].
  rewrite lookup_app_plus. destruct (E !! i); reflexivity.
Qed.

Lemma bind_set_device {B} l d (k : unit -> M B) P Q D E i :
  l = (length D + i)%nat ->
  bind (set_device l d) k (mkStore P Q (D ++ E)) =
  k tt (mkStore P Q (D ++ <[i := d]> E)).
Proof.
  intros ->. unfold bind, set_device. cbn [ports patterns devices].
  rewrite insert_app_plus. reflexivity.
Qed.

Ltac exec_device_step :=
  first
    [ exec_step
    | rewrite bind_new_device
    | erewrite bind_get_device by reflexivity
    | erewrite bind_set_device by reflexivity ];
  exec_simpl; cbn [mapM dname pattern_to_layer dport].

Section FocusingGrating_facts.

Context {G : Geometry}.

(** Lines 238 to 240 of [FocusingGrating.__post_init__] in closed form. *)
Lemma FocusingGrating_stub_eq (f : FocusingGrating_fields) (s : store) :
  FocusingGrating_stub f s =
  let '(_, _, maxx, _) := bounds (stub_polygons f) in
  Ok (mkWaveguideDevice (length (devices s) + 0) (length (patterns s) + 0) None,
      mkStore (ports s ++ stub_new_ports f maxx)
              (patterns s ++ stub_new_patterns f (length (ports s)) maxx)
              (devices s ++ stub_new_devices f (length (ports s)) (length (patterns s)))).
Proof.
  destruct s as [P Q D]. cbn [ports patterns devices].
  rewrite <- (app_nil_r P) at 1. rewrite <- (app_nil_r Q) at 1. rewrite <- (app_nil_r D) at 1.
  unfold FocusingGrating_stub, straight, path, Port_init, WaveguideDevice_post_init,
    Device_init, port_getitem, Port_copy, set_dport_dict, dport_getitem, Device_halign,
    Device_polygons, Device_translate, Pattern_translate, stub_polygons.
  cbn [app mapM].
  repeat exec_device_step.
  destruct (bounds _) as [[[minx miny] maxx] maxy] eqn:Hb.
  repeat (exec_device_step || rewrite port_refs2). reflexivity.
Qed.

Lemma FocusingGrating_stub_inv (f : FocusingGrating_fields) (s s' : store)
    (w : WaveguideDevice) :
  FocusingGrating_stub f s = Ok (w, s') ->
  exists minx miny maxx maxy,
    bounds (stub_polygons f) = (minx, miny, maxx, maxy) /\
    w = mkWaveguideDevice (length (devices s) + 0) (length (patterns s) + 0) None /\
    s' = mkStore (ports s ++ stub_new_ports f maxx)
                 (patterns s ++ stub_new_patterns f (length (ports s)) maxx)
                 (devices s ++ stub_new_devices f (length (ports s)) (length (patterns s))).
Proof.
  rewrite FocusingGrating_stub_eq.
  destruct (bounds _) as [[[minx miny] maxx] maxy].
  intros [= <- <-]. exists minx, miny, maxx, maxy. auto.
Qed.

(** The bounding box of the stub once it is placed. *)
Lemma stub_placed_bounds (f : FocusingGrating_fields) (s : store) minx miny maxx maxy :
  bounds_of (stub_polygons f) = Some (minx, miny, maxx, maxy) ->
  Pattern_bounds (length (patterns s) + 0)%nat
    (mkStore (ports s ++ stub_new_ports f maxx)
       (patterns s ++ stub_new_patterns f (length (ports s)) maxx)
       (devices s ++ stub_new_devices f (length (ports s)) (length (patterns s)))) =
  Ok (shift_box (stub_offset f - maxx) 0 (minx, miny, maxx, maxy),
      mkStore (ports s ++ stub_new_ports f maxx)
       (patterns s ++ stub_new_patterns f (length (ports s)) maxx)
       (devices s ++ stub_new_devices f (length (ports s)) (length (patterns s)))).
Proof.
  intros Hb. unfold Pattern_bounds, stub_new_patterns.
  repeat exec_step. rewrite (bounds_translate _ _ _ _ Hb). reflexivity.
Qed.

(** C2, as the code has it.  The stub is swept along a straight trajectory;
    let maxx0 be the right edge of the bounding box of that geometry.  Then
    the stub is placed by one translation along x, by |w / tan(angle / 2)| -
    maxx0, the angle taken in degrees: the polygons of the stub, its ports a0
    and b0 and the ports a0 and b0 of the device around it are all moved by
    that translation, and the right edge of the placed stub is at x = |w /
    tan(angle / 2)|, the apex of the sector being at the origin.  When the
    trajectory ends at the right edge of its geometry, the port b0 is itself
    at x = |w / tan(angle / 2)|.  There is no factor 1/2.  The angle is taken
    with tan(angle / 2) different from 0, where the quotient of real numbers
    and the one of floats agree. *)
Theorem FocusingGrating_stub_offset (f : FocusingGrating_fields) (s s' : store)
    (w : WaveguideDevice) (minx0 miny0 maxx0 maxy0 : R) :
  tan (radians (fg_angle f) / 2) <> 0 ->
  bounds_of (stub_polygons f) = Some (minx0, miny0, maxx0, maxy0) ->
  FocusingGrating_stub f s = Ok (w, s') ->
  let offset := Rabs (fg_waveguide_w f / tan (radians (fg_angle f) / 2)) in
  let move := translate_port (offset - maxx0) 0 in
  let a := end_port (fst (curve_ends (Straight (fg_waveguide_l f)))) (fg_waveguide_w f) in
  let b := end_port (snd (curve_ends (Straight (fg_waveguide_l f)))) (fg_waveguide_w f) in
  polygons_at s' (ridge_waveguide w) =
    Some (translate_polygons (offset - maxx0) 0 (stub_polygons f)) /\
  (exists minx miny maxy,
     Pattern_bounds (ridge_waveguide w) s' = Ok ((minx, miny, offset, maxy), s')) /\
  port_at s' (ridge_waveguide w) "a0" = Some (move a) /\
  port_at s' (ridge_waveguide w) "b0" = Some (move b) /\
  dport_at s' (WaveguideDevice_self w) "a0" = Some (move a) /\
  dport_at s' (WaveguideDevice_self w) "b0" = Some (move b) /\
  (px b = maxx0 -> px (move b) = offset).
Proof.
  intros _ Hb H offset move a b. apply FocusingGrating_stub_inv in H
    as (minx & miny & maxx & maxy & Hb' & -> & ->).
  rewrite (bounds_nonempty _ _ Hb) in Hb'. injection Hb' as <- <- <- <-.
  cbn [ridge_waveguide WaveguideDevice_self].
  split.
  { unfold polygons_at, stub_new_patterns. cbn [patterns].
    rewrite lookup_app_plus. reflexivity. }
  split.
  { exists (minx0 + (offset - maxx0)), (miny0 + 0), (maxy0 + 0).
    rewrite (stub_placed_bounds f s _ _ _ _ Hb). unfold shift_box.
    replace (maxx0 + (stub_offset f - maxx0)) with offset by (unfold stub_offset, offset; lra).
    reflexivity. }
  assert (Hpat : forall name i,
            (<["b0" := (length (ports s) + 1)%nat]>
               (<["a0" := (length (ports s) + 0)%nat]> (∅ : gmap string nat))) !! name
              = Some (length (ports s) + i)%nat ->
            port_at (mkStore (ports s ++ stub_new_ports f maxx0)
                       (patterns s ++ stub_new_patterns f (length (ports s)) maxx0)
                       (devices s ++
                        stub_new_devices f (length (ports s)) (length (patterns s))))
                    (length (patterns s) + 0)%nat name = stub_new_ports f maxx0 !! i).
  { intros name i Hname. unfold port_at, stub_new_patterns. cbn [patterns ports].
    rewrite lookup_app_plus. cbn [lookup list_lookup mbind option_bind port].
    rewrite Hname. cbn [mbind option_bind]. apply lookup_app_plus. }
  assert (Hdev : forall name i,
            (<["b0" := (length (ports s) + 3)%nat]>
               (<["a0" := (length (ports s) + 2)%nat]> (∅ : gmap string nat))) !! name
              = Some (length (ports s) + i)%nat ->
            dport_at (mkStore (ports s ++ stub_new_ports f maxx0)
                        (patterns s ++ stub_new_patterns f (length (ports s)) maxx0)
                        (devices s ++
                         stub_new_devices f (length (ports s)) (length (patterns s))))
                     (length (devices s) + 0)%nat name = stub_new_ports f maxx0 !! i).
  { intros name i Hname. unfold dport_at, stub_new_devices. cbn [devices ports].
    rewrite lookup_app_plus. cbn [lookup list_lookup mbind option_bind dport].
    rewrite Hname. cbn [mbind option_bind]. apply lookup_app_plus. }
  split; [exact (Hpat "a0" 0%nat eq_refl)|].
  split; [exact (Hpat "b0" 1%nat eq_refl)|].
  split; [exact (Hdev "a0" 2%nat eq_refl)|].
  split; [exact (Hdev "b0" 3%nat eq_refl)|].
  intros Hend. unfold move, translate_port. cbn [px]. rewrite Hend. lra.
Qed.

End FocusingGrating_facts.

(** * Gratings and the duty cycle *)

Lemma bind_get_pattern_old {B} l (k : Pattern -> M B) P Q J D p :
  Q !! l = Some p ->
  bind (get_pattern l) k (mkStore P (Q ++ J) D) = k p (mkStore P (Q ++ J) D).
Proof.
  intros H. unfold bind, get_pattern. cbn [patterns].
  rewrite (lookup_app_l_Some _ _ _ _ H). reflexivity.
Qed.

Lemma bind_get_port_old {B} l (k : Port -> M B) P K Q D p :
  P !! l = Some p ->
  bind (get_port l) k (mkStore (P ++ K) Q D) = k p (mkStore (P ++ K) Q D).
Proof.
  intros H. unfold bind, get_port. cbn [ports].
  rewrite (lookup_app_l_Some _ _ _ _ H). reflexivity.
Qed.

Lemma range_from_pos (a n : Z) : (1 <= n)%Z -> exists x l, range_from a (a + n) = x :: l.
Proof.
  intros Hn. unfold range_from.
  destruct (Z.to_nat (a + n - a)) as [|k] eqn:E; [lia|].
  cbn. eauto.
Qed.

Section Grating_facts.

Context {G : Geometry}.

Lemma grating_arc_rejects angle duty_cycle n_core n_clad fiber_angle wavelength m n s :
  outside_unit_interval duty_cycle ->
  grating_arc angle duty_cycle n_core n_clad fiber_angle wavelength m n s = Err ValueError.
Proof.
  intros [H | H]; unfold grating_arc.
  - destruct (Rle_dec duty_cycle 0); [reflexivity|lra].
  - destruct (Rle_dec duty_cycle 0); [reflexivity|].
    destruct (Rle_dec 1 duty_cycle); [reflexivity|lra].
Qed.

Lemma FocusingGrating_rejects_duty_cycle (f : FocusingGrating_fields) (s : store) :
  outside_unit_interval (fg_duty_cycle f) -> (1 <= fg_num_periods f)%Z ->
  FocusingGrating_post_init f s = Err ValueError.
Proof.
  intros Hd Hn. unfold FocusingGrating_post_init.
  destruct (range_from_pos (fg_min_period f) _ Hn) as (x & l & ->).
  cbn [mapM]. unfold bind at 1. unfold bind at 1.
  rewrite grating_arc_rejects by assumption. reflexivity.
Qed.

Lemma port_refs_empty : port_refs ∅ = [].
Proof. reflexivity. Qed.

Lemma bind_update_ports0 {B} f (k : unit -> M B) s :
  bind (update_ports f []) k s = k tt s.
Proof. destruct s. reflexivity. Qed.

(** [StraightGrating.__post_init__] on a waveguide that has a port a0, in
    closed form: no field is checked. *)
Lemma StraightGrating_post_init_run (f : StraightGrating_fields) (s : store) p l v :
  patterns s !! sg_waveguide f = Some p -> port p !! "a0" = Some l ->
  ports s !! l = Some v ->
  StraightGrating_post_init f s =
  Ok (mkStraightGrating (length (devices s) + 0) f (sg_pitch f * (1 - sg_duty_cycle f)),
      mkStore (ports s ++ [v])
              (patterns s ++ StraightGrating_new_patterns f p)
              (devices s ++
               StraightGrating_new_devices f (length (ports s)) (length (patterns s)))).
Proof.
  intros Hp Hl Hv. destruct s as [P Q D]. cbn [ports patterns devices] in *.
  rewrite <- (app_nil_r P) at 1. rewrite <- (app_nil_r Q) at 1.
  rewrite <- (app_nil_r D) at 1.
  unfold StraightGrating_post_init, Box, Pattern_hstack,
    Pattern_buffer, Pattern_striped, Pattern_of_polygons, Pattern_translate, Device_init,
    port_getitem, Port_copy, dport_setitem.
  cbn [mapM].
  repeat (exec_device_step || (erewrite bind_get_pattern_old by eassumption) ||
          rewrite Hl || (erewrite bind_get_port_old by eassumption) ||
          rewrite port_refs_empty || rewrite bind_update_ports0 ||
          (progress (cbn [concat app]))).
  reflexivity.
Qed.

(** C8, as the code has it.  A focusing grating hands its duty cycle to the
    curve generator, whose validation rejects a value outside (0, 1) at the
    first of its periods; a straight grating checks nothing: on a waveguide
    that has a port a0 it is constructed for every duty cycle, with teeth of
    stripe width pitch * (1 - duty_cycle). *)
Theorem duty_cycle_outside_unit_interval (duty_cycle : R) :
  outside_unit_interval duty_cycle ->
  (forall (f : FocusingGrating_fields) (s : store),
     fg_duty_cycle f = duty_cycle -> (1 <= fg_num_periods f)%Z ->
     FocusingGrating_post_init f s = Err ValueError) /\
  (forall (f : StraightGrating_fields) (s : store) p l v,
     sg_duty_cycle f = duty_cycle ->
     patterns s !! sg_waveguide f = Some p -> port p !! "a0" = Some l ->
     ports s !! l = Some v ->
     exists g s' teeth,
       StraightGrating_post_init f s = Ok (g, s') /\
       stripe_w g = sg_pitch f * (1 - duty_cycle) /\
       polygons_at s' teeth =
         Some (striped_of (sg_pitch f * (1 - duty_cycle)) (sg_pitch f, 0)
                 (stacked_box f p))).
Proof.
  intros Hd. split.
  - intros f s <- Hn. apply FocusingGrating_rejects_duty_cycle; assumption.
  - intros f s p l v <- Hp Hl Hv.
    eexists _, _, (length (patterns s) + 3)%nat.
    split; [apply (StraightGrating_post_init_run f s p l v); assumption|].
    split; [reflexivity|].
    unfold polygons_at, StraightGrating_new_patterns. cbn [patterns].
    rewrite lookup_app_plus. reflexivity.
Qed.

End Grating_facts.

(** * WaveguideDevice *)

Section WaveguideDevice_facts.

Context {G : Geometry}.

(** [WaveguideDevice.__post_init__] on a ridge waveguide that has the ports a0
    and b0, in closed form: the device gets two new port objects. *)
Lemma WaveguideDevice_post_init_run (rw : ref) (sw : option ref) (ridge slab name : string)
    (s : store) p la lb va vb :
  patterns s !! rw = Some p ->
  port p !! "a0" = Some la -> port p !! "b0" = Some lb ->
  ports s !! la = Some va -> ports s !! lb = Some vb ->
  WaveguideDevice_post_init rw sw ridge slab name s =
  Ok (mkWaveguideDevice (length (devices s) + 0) rw sw,
      mkStore (ports s ++ [va; vb]) (patterns s)
        (devices s ++
         [mkDevice name
            ((rw, Some ridge) :: match sw with Some x => [(x, Some slab)] | None => [] end)
            (<["b0" := (length (ports s) + 1)%nat]>
               (<["a0" := (length (ports s) + 0)%nat]> ∅))])).
Proof.
  intros Hp Ha Hb Hva Hvb. destruct s as [P Q D]. cbn [ports patterns devices] in *.
  rewrite <- (app_nil_r P) at 1. rewrite <- (app_nil_r Q) at 1.
  rewrite <- (app_nil_r D) at 1.
  unfold WaveguideDevice_post_init, Device_init, port_getitem, Port_copy, set_dport_dict.
  destruct sw as [x|]; cbn [app mapM];
    repeat (exec_device_step || (erewrite bind_get_pattern_old by eassumption) ||
            rewrite Ha || rewrite Hb || (erewrite bind_get_port_old by eassumption) ||
            (progress (cbn [concat app])));
    rewrite (app_nil_r Q); reflexivity.
Qed.

(** X5: the ports a [WaveguideDevice] exposes are copies; assigning to the
    port a0 of the device leaves the port a0 of the ridge waveguide as it
    was. *)
Lemma WaveguideDevice_ports_are_copies (rw : ref) (sw : option ref)
    (ridge slab name : string) (s : store) p la lb va vb :
  patterns s !! rw = Some p ->
  port p !! "a0" = Some la -> port p !! "b0" = Some lb ->
  ports s !! la = Some va -> ports s !! lb = Some vb ->
  exists w s' l,
    WaveguideDevice_post_init rw sw ridge slab name s = Ok (w, s') /\
    dport_at s' (WaveguideDevice_self w) "a0" = Some va /\
    port_at s' rw "a0" = Some va /\
    forall v, dport_at (assign_port l v s') (WaveguideDevice_self w) "a0" = Some v /\
              port_at (assign_port l v s') rw "a0" = Some va.
Proof.
  intros Hp Ha Hb Hva Hvb.
  eexists _, _, (length (ports s) + 0)%nat.
  split; [eapply WaveguideDevice_post_init_run; eassumption|].
  assert (Hla : (la < length (ports s))%nat) by (eapply lookup_lt_Some; eassumption).
  unfold dport_at, port_at, assign_port.
  cbn [WaveguideDevice_self devices patterns ports].
  rewrite !lookup_app_plus. cbn [lookup list_lookup mbind option_bind dport].
  rewrite lookup_insert_ne by done. rewrite lookup_insert_eq. cbn [mbind option_bind].
  rewrite Hp. cbn [mbind option_bind]. rewrite Ha. cbn [mbind option_bind].
  rewrite lookup_app_plus.
  split; [reflexivity|]. split; [apply lookup_app_l_Some; assumption|].
  intros v. rewrite insert_app_plus. rewrite lookup_app_plus. split; [reflexivity|].
  apply lookup_app_l_Some; assumption.
Qed.

End WaveguideDevice_facts.

(** Look an object up in a store written as an extension. *)
Ltac store_lookup :=
  unfold port_at, dport_at, port_names, polygons_at, DC_object, DC_new_patterns,
    DC_new_ports;
  cbn [ports patterns devices DC_self lower_path upper_path];
  rewrite ?lookup_app_plus;
  cbn [lookup list_lookup mbind option_bind polygons port dport refs];
  repeat match goal with
         | |- context [ <[?i := ?x]> ?m !! ?j ] =>
             first [ rewrite (lookup_insert_eq m i x)
                   | rewrite (lookup_insert_ne m i j x) by done ]
         end;
  cbn [mbind option_bind ports];
  rewrite ?lookup_app_plus.

(** * The coupler, its paths and the store *)

Section DC_objects.

Context {G : Geometry}.

(** X1: lines 63 and 64, the ports handed to the two paths are copies of the
    coupler's ports, so the paths and the coupler never share a port
    object. *)
Theorem DC_path_ports_are_copies (f : DC_fields) (s s' : store) (d : DC) :
  DC_post_init f s = Ok (d, s') ->
  port_at s' (lower_path d) "a0" = port_at s' (DC_self d) "a0" /\
  port_at s' (lower_path d) "b0" = port_at s' (DC_self d) "b0" /\
  port_at s' (upper_path d) "a0" = port_at s' (DC_self d) "a1" /\
  port_at s' (upper_path d) "b0" = port_at s' (DC_self d) "b1" /\
  port_names s' (lower_path d) = Some {[ "a0"; "b0" ]} /\
  port_names s' (upper_path d) = Some {[ "a0"; "b0" ]} /\
  (forall pd pl pu, patterns s' !! DC_self d = Some pd ->
     patterns s' !! lower_path d = Some pl -> patterns s' !! upper_path d = Some pu ->
     forall name l, port pd !! name = Some l ->
       forall name', port pl !! name' <> Some l /\ port pu !! name' <> Some l /\
                     (name' <> name -> port pd !! name' <> Some l)).
Proof.
  intros H. apply DC_post_init_inv in H as (_ & _ & bb & Hbb & -> & ->).
  repeat (split; [store_lookup; reflexivity|]).
  intros pd pl pu. store_lookup. intros [= <-] [= <-] [= <-]. cbn [port].
  intros name l Hl name'.
  rewrite !lookup_insert_Some, lookup_empty in Hl.
  rewrite !lookup_insert_Some, !lookup_empty.
  repeat split; intros H; intuition (subst; try discriminate; try congruence; lia).
Qed.

(** X2: construction of a coupler only adds objects, twelve ports and three
    patterns, no device; what was in the store before is still there,
    unchanged.  The coupler keeps its two paths as references (line 65). *)
Theorem DC_post_init_frame (f : DC_fields) (s s' : store) (d : DC) :
  DC_post_init f s = Ok (d, s') ->
  (forall l p, ports s !! l = Some p -> ports s' !! l = Some p) /\
  (forall l p, patterns s !! l = Some p -> patterns s' !! l = Some p) /\
  devices s' = devices s /\
  length (ports s') = (length (ports s) + 12)%nat /\
  length (patterns s') = (length (patterns s) + 3)%nat /\
  (refs <$> patterns s' !! DC_self d) = Some [lower_path d; upper_path d] /\
  lower_path d <> upper_path d /\
  (length (patterns s) <= lower_path d)%nat.
Proof.
  intros H. apply DC_post_init_inv in H as (_ & _ & bb & Hbb & -> & ->).
  cbn [ports patterns devices].
  split; [intros; apply lookup_app_l_Some; assumption|].
  split; [intros; apply lookup_app_l_Some; assumption|].
  split; [reflexivity|].
  rewrite !length_app. cbn [length DC_new_ports DC_new_patterns].
  repeat (split; [reflexivity|]).
  split; [store_lookup; reflexivity|].
  cbn. split; lia.
Qed.

End DC_objects.

(** Run a constructor in a store written as an extension, reading objects of
    the old part through the hypotheses at hand. *)
Ltac exec_old :=
  repeat (exec_device_step ||
          (erewrite bind_get_pattern_old by eassumption) ||
          (erewrite bind_get_port_old by eassumption) ||
          rewrite port_refs_empty || rewrite bind_update_ports0 ||
          match goal with
          | H : _ !! _ = _ |- context [match ?d !! ?k with _ => _ end] =>
              rewrite H
          end ||
          (progress (cbn [concat app mapM]))).

(** * Devices: layers, ports and missing ports *)

Section Device_objects.

Context {G : Geometry}.

(** X3: lines 152 to 155, the entries of a [WaveguideDevice] are the ridge on
    the ridge layer, followed by the slab on the slab layer when there is one;
    with or without a slab the ports are a0 and b0, with the values of the
    ridge's ports; no pattern is touched. *)
Theorem WaveguideDevice_layers_and_ports (rw : ref) (sw : option ref)
    (ridge slab name : string) (s : store) p la lb va vb :
  patterns s !! rw = Some p ->
  port p !! "a0" = Some la -> port p !! "b0" = Some lb ->
  ports s !! la = Some va -> ports s !! lb = Some vb ->
  exists w s',
    WaveguideDevice_post_init rw sw ridge slab name s = Ok (w, s') /\
    layers_at s' (WaveguideDevice_self w) =
      Some ((rw, Some ridge) :: match sw with Some x => [(x, Some slab)] | None => [] end) /\
    dport_names s' (WaveguideDevice_self w) = Some {[ "a0"; "b0" ]} /\
    dport_at s' (WaveguideDevice_self w) "a0" = Some va /\
    dport_at s' (WaveguideDevice_self w) "b0" = Some vb /\
    patterns s' = patterns s /\
    (forall l v, ports s !! l = Some v -> ports s' !! l = Some v).
Proof.
  intros Hp Ha Hb Hva Hvb. eexists _, _.
  split; [eapply WaveguideDevice_post_init_run; eassumption|].
  unfold layers_at, dport_names.
  cbn [WaveguideDevice_self devices patterns ports].
  rewrite !lookup_app_plus. cbn [lookup list_lookup mbind option_bind pattern_to_layer dport].
  split; [reflexivity|]. split; [reflexivity|].
  split; [store_lookup; reflexivity|]. split; [store_lookup; reflexivity|].
  split; [reflexivity|]. intros; apply lookup_app_l_Some; assumption.
Qed.

(** X4: a ridge waveguide without the port a0, or without the port b0, is
    refused with the missing key. *)
Theorem WaveguideDevice_missing_port (rw : ref) (sw : option ref)
    (ridge slab name : string) (s : store) p :
  patterns s !! rw = Some p ->
  (port p !! "a0" = None ->
   WaveguideDevice_post_init rw sw ridge slab name s = Err (KeyError "a0")) /\
  (forall la va, port p !! "a0" = Some la -> ports s !! la = Some va ->
   port p !! "b0" = None ->
   WaveguideDevice_post_init rw sw ridge slab name s = Err (KeyError "b0")).
Proof.
  intros Hp. destruct s as [P Q D]. cbn [ports patterns devices] in *.
  split.
  - intros Ha. rewrite <- (app_nil_r P), <- (app_nil_r Q), <- (app_nil_r D).
    unfold WaveguideDevice_post_init, Device_init, port_getitem, Port_copy, set_dport_dict.
    destruct sw as [x|]; cbn [app mapM]; exec_old; reflexivity.
  - intros la va Ha Hva Hb. rewrite <- (app_nil_r P), <- (app_nil_r Q), <- (app_nil_r D).
    unfold WaveguideDevice_post_init, Device_init, port_getitem, Port_copy, set_dport_dict.
    destruct sw as [x|]; cbn [app mapM]; exec_old; reflexivity.
Qed.

(** X6: lines 186 to 190, a straight grating has three entries, the grown box
    on the slab layer, the striped box on the ridge layer and the waveguide on
    the ridge layer; both boxes are the same extent box next to the
    waveguide; its only port a0 is a new object with the value of the
    waveguide's a0, and the waveguide itself is not touched. *)
Theorem StraightGrating_layers_and_port (f : StraightGrating_fields) (s : store) p l v :
  patterns s !! sg_waveguide f = Some p -> port p !! "a0" = Some l ->
  ports s !! l = Some v ->
  exists g s' slab teeth a0,
    StraightGrating_post_init f s = Ok (g, s') /\
    layers_at s' (StraightGrating_self g) =
      Some [(slab, Some (sg_slab f)); (teeth, Some (sg_ridge f));
            (sg_waveguide f, Some (sg_ridge f))] /\
    polygons_at s' slab = Some (buffer_of (sg_rib_grow f) (stacked_box f p)) /\
    polygons_at s' teeth =
      Some (striped_of (sg_pitch f * (1 - sg_duty_cycle f)) (sg_pitch f, 0)
              (stacked_box f p)) /\
    dport_names s' (StraightGrating_self g) = Some {[ "a0" ]} /\
    (dport <$> devices s' !! StraightGrating_self g) = Some {[ "a0" := a0 ]} /\
    ports s' !! a0 = Some v /\ ports s !! a0 = None /\
    patterns s' !! sg_waveguide f = Some p /\
    (forall l' v', ports s !! l' = Some v' -> ports s' !! l' = Some v').
Proof.
  intros Hp Hl Hv.
  eexists _, _, (length (patterns s) + 1)%nat, (length (patterns s) + 3)%nat,
    (length (ports s) + 0)%nat.
  split; [apply (StraightGrating_post_init_run f s p l v); assumption|].
  unfold layers_at, dport_names, polygons_at, StraightGrating_new_patterns,
    StraightGrating_new_devices.
  cbn [StraightGrating_self devices patterns ports].
  rewrite !lookup_app_plus.
  cbn [lookup list_lookup mbind option_bind pattern_to_layer dport polygons fmap option_fmap
       option_map].
  repeat (split; [reflexivity|]).
  split; [apply lookup_ge_None; lia|].
  split; [apply lookup_app_l_Some; assumption|].
  intros; apply lookup_app_l_Some; assumption.
Qed.

(** X7: a waveguide without the port a0 is refused with the missing key, by
    the last statement of the constructor. *)
Theorem StraightGrating_missing_port (f : StraightGrating_fields) (s : store) p :
  patterns s !! sg_waveguide f = Some p -> port p !! "a0" = None ->
  StraightGrating_post_init f s = Err (KeyError "a0").
Proof.
  intros Hp Ha. destruct s as [P Q D]. cbn [ports patterns devices] in *.
  rewrite <- (app_nil_r P), <- (app_nil_r Q), <- (app_nil_r D).
  unfold StraightGrating_post_init, Box, Pattern_hstack,
    Pattern_buffer, Pattern_striped, Pattern_of_polygons, Pattern_translate, Device_init,
    port_getitem, Port_copy, dport_setitem.
  cbn [mapM]. exec_old. reflexivity.
Qed.

(** X8: line 236 reads the first of the grating arcs; with no period there is
    none and construction raises [IndexError], whatever the other fields
    are. *)
Theorem FocusingGrating_no_period (f : FocusingGrating_fields) (s : store) :
  (fg_num_periods f <= 0)%Z -> FocusingGrating_post_init f s = Err IndexError.
Proof.
  intros Hn. unfold FocusingGrating_post_init, range_from.
  replace (Z.to_nat (fg_min_period f + fg_num_periods f - fg_min_period f)) with 0%nat by lia.
  reflexivity.
Qed.

End Device_objects.

(** * Copies and what they leave alone *)

Lemma preserves_refl s : preserves s s.
Proof. repeat split; auto. Qed.

Lemma preserves_trans s1 s2 s3 : preserves s1 s2 -> preserves s2 s3 -> preserves s1 s3.
Proof.
  intros (H1 & H2 & H3) (H4 & H5 & H6). repeat split; [auto|auto|congruence].
Qed.

Lemma extends_preserves s s' : extends s s' -> preserves s s'.
Proof.
  intros ((K & HK) & (J & HJ) & HD). repeat split; [| |assumption].
  - intros l v H. rewrite HK. apply lookup_app_l_Some. assumption.
  - intros l p H. rewrite HJ. apply lookup_app_l_Some. assumption.
Qed.

Lemma extends_ports_length s s' :
  extends s s' -> (length (ports s) <= length (ports s'))%nat.
Proof. intros ((K & ->) & _). rewrite length_app. lia. Qed.

Lemma foldr_alter_other {A} (f : A -> A) (ls : list nat) (P : list A) (l : nat) :
  l ∉ ls -> foldr (fun r ps => alter f r ps) P ls !! l = P !! l.
Proof.
  induction ls as [|r ls IH]; intros Hl; cbn [foldr]; [reflexivity|].
  rewrite not_elem_of_cons in Hl. destruct Hl as [Hne Hl].
  rewrite list_lookup_alter_ne by congruence. apply IH. assumption.
Qed.

Lemma port_refs_lookup (d : gmap string nat) (r : nat) :
  r ∈ port_refs d -> exists k, d !! k = Some r.
Proof.
  unfold port_refs. rewrite list_elem_of_fmap. intros ([k r'] & -> & H).
  apply elem_of_map_to_list in H. eauto.
Qed.

(** The ports of a copied dictionary are new objects. *)
Lemma copy_ports_fresh (l : list (string * nat)) :
  forall s kvs s',
    mapM (fun kv : string * nat => let! r := Port_copy (snd kv) in ret (fst kv, r)) l s
      = Ok (kvs, s') ->
    Forall (fun kv => (length (ports s) <= snd kv)%nat) kvs.
Proof.
  induction l as [|[k r] l IH]; intros s kvs s' H; cbn [mapM] in H.
  - apply ret_inv in H as [-> _]. constructor.
  - apply bind_inv in H as (b & s1 & Hb & H).
    apply bind_inv in H as (bs & s2 & Hbs & H).
    apply ret_inv in H as [-> ->].
    cbn [fst snd] in Hb.
    apply bind_inv in Hb as (r' & s3 & Hc & Hb). apply ret_inv in Hb as [-> ->].
    pose proof (Port_copy_extends _ _ _ _ Hc) as Hext.
    unfold Port_copy in Hc. apply bind_inv in Hc as (v & s4 & Hv & Hc).
    apply get_port_inv in Hv as [_ ->]. unfold new_port in Hc. injection Hc as <- _.
    constructor; [cbn; lia|].
    apply IH in Hbs. eapply Forall_impl; [exact Hbs|].
    intros kv Hkv. cbn beta in Hkv. pose proof (extends_ports_length _ _ Hext). lia.
Qed.

Lemma copy_port_dict_fresh d s d' s' :
  copy_port_dict d s = Ok (d', s') ->
  forall k r, d' !! k = Some r -> (length (ports s) <= r)%nat.
Proof.
  unfold copy_port_dict. intros H k r Hr.
  apply bind_inv in H as (kvs & s1 & Hk & H). apply ret_inv in H as [-> ->].
  apply copy_ports_fresh in Hk. apply elem_of_list_to_map_2 in Hr.
  rewrite Forall_forall in Hk. apply (Hk (k, r)). assumption.
Qed.

(** A deep copy is a new pattern with the polygons of the original and new
    port objects; the store is extended. *)
Lemma deepcopy_spec fuel l s c s' :
  deepcopy fuel l s = Ok (c, s') ->
  exists p d rs,
    patterns s !! l = Some p /\ extends s s' /\
    patterns s' !! c = Some (mkPattern (polygons p) d rs) /\
    (length (patterns s) <= c)%nat /\
    (forall k r, d !! k = Some r -> (length (ports s) <= r)%nat).
Proof.
  intros H. pose proof (deepcopy_extends _ _ _ _ _ H) as (Hext & Hle & _).
  destruct fuel as [|n]; cbn [deepcopy] in H; [discriminate|].
  apply bind_inv in H as (p & s1 & Hp & H). apply get_pattern_inv in Hp as [Hp ->].
  apply bind_inv in H as (d & s2 & Hd & H).
  apply bind_inv in H as (rs & s3 & Hrs & H).
  apply new_pattern_extends in H as (_ & -> & Hpat & _).
  exists p, d, rs.
  split; [assumption|]. split; [assumption|].
  split; [rewrite Hpat; apply list_lookup_middle; reflexivity|].
  split; [assumption|].
  eapply copy_port_dict_fresh; eassumption.
Qed.

(** Copying a pattern and moving the copy leaves every object of the store as
    it was; the copy has the polygons of the original, moved. *)
Lemma copy_then_translate unit dx dy s c s' u :
  patterns s !! unit = Some u ->
  (let! c := Pattern_copy unit in Pattern_translate c dx dy) s = Ok (c, s') ->
  preserves s s' /\
  polygons_at s' c = Some (translate_polygons dx dy (polygons u)).
Proof.
  intros Hu H. apply bind_inv in H as (c0 & s1 & Hc & H).
  unfold Pattern_copy in Hc.
  apply deepcopy_spec in Hc as (p & d & rs & Hp & Hext & Hpc & Hle & Hfresh).
  rewrite Hu in Hp. injection Hp as <-.
  apply Pattern_translate_inv in H as (pc & Hpc' & -> & ->).
  rewrite Hpc in Hpc'. injection Hpc' as <-.
  pose proof (extends_preserves _ _ Hext) as (Hports & Hpats & Hdev).
  split.
  - repeat split; cbn [transformed ports patterns devices port polygons refs].
    + intros l v Hl. rewrite foldr_alter_other; [auto|].
      intros Hin. apply port_refs_lookup in Hin as (k & Hk). apply Hfresh in Hk.
      apply lookup_lt_Some in Hl. lia.
    + intros l q Hl. rewrite list_lookup_insert_ne; [auto|].
      apply lookup_lt_Some in Hl. lia.
    + assumption.
  - unfold polygons_at. cbn [transformed patterns polygons].
    rewrite list_lookup_insert_eq by (eapply lookup_lt_Some; eassumption).
    reflexivity.
Qed.

(** * Array on an int pitch, on an empty grid, and without a pitch *)

Section Array_tiles.

Context {G : Geometry}.

Lemma Array_cell_int unit p ij s :
  Array_cell unit (PyInt p) ij s =
  (let! c := Pattern_copy unit in
   Pattern_translate c (IZR (fst ij * p)) (IZR (snd ij * p))) s.
Proof.
  unfold Array_cell, bind. destruct (Pattern_copy unit s) as [[c s1]|e]; reflexivity.
Qed.

Lemma Array_cells_int unit p u (cells : list (Z * Z)) :
  forall s cs s',
    patterns s !! unit = Some u ->
    mapM (Array_cell unit (PyInt p)) cells s = Ok (cs, s') ->
    preserves s s' /\
    Forall2 (fun ij c => polygons_at s' c = Some (tile p (polygons u) ij)) cells cs.
Proof.
  induction cells as [|ij cells IH]; intros s cs s' Hu H; cbn [mapM] in H.
  - apply ret_inv in H as [-> ->]. split; [apply preserves_refl|constructor].
  - apply bind_inv in H as (c & s1 & Hc & H).
    apply bind_inv in H as (cs' & s2 & Hcs & H).
    apply ret_inv in H as [-> ->].
    rewrite Array_cell_int in Hc.
    destruct (copy_then_translate _ _ _ _ _ _ _ Hu Hc) as (Hpres & Hpoly).
    assert (Hu1 : patterns s1 !! unit = Some u) by (apply Hpres; assumption).
    destruct (IH _ _ _ Hu1 Hcs) as (Hpres' & Hall).
    split; [eapply preserves_trans; eassumption|].
    constructor; [|assumption].
    unfold polygons_at in *. destruct (patterns s1 !! c) as [q|] eqn:Hq; [|discriminate].
    destruct Hpres' as (_ & Hpat & _). rewrite (Hpat _ _ Hq). assumption.
Qed.

Lemma row_length {A B} (a : A) (l2 : list B) :
  length (j ← l2; [(a, j)]) = length l2.
Proof.
  induction l2 as [|b l2 IH]; [reflexivity|].
  cbn [mbind list_bind length app]. f_equal. exact IH.
Qed.

Lemma pairs_length {A B} (l1 : list A) (l2 : list B) :
  length (i ← l1; j ← l2; [(i, j)]) = (length l1 * length l2)%nat.
Proof.
  induction l1 as [|a l1 IH]; [reflexivity|].
  cbn [mbind list_bind length]. rewrite length_app.
  change (length (list_bind _ _ (fun i => j ← l2; [(i, j)]) l1))
    with (length (i ← l1; j ← l2; [(i, j)])).
  rewrite IH, row_length. reflexivity.
Qed.

Lemma grid_cells_length (m n : Z) :
  length (grid_cells m n) = (Z.to_nat m * Z.to_nat n)%nat.
Proof.
  unfold grid_cells, range. rewrite pairs_length, !length_map, !length_seq. reflexivity.
Qed.

Lemma Array_copies_cells unit m n pitch :
  Array_copies unit (m, n) pitch = mapM (Array_cell unit pitch) (grid_cells m n).
Proof. reflexivity. Qed.

Lemma mapM_length {A B} (f : A -> M B) (l : list A) :
  forall s r s', mapM f l s = Ok (r, s') -> length r = length l.
Proof.
  induction l as [|a l IH]; intros s r s' H; cbn [mapM] in H.
  - apply ret_inv in H as [-> _]. reflexivity.
  - apply bind_inv in H as (b & s1 & _ & H).
    apply bind_inv in H as (bs & s2 & Hbs & H).
    apply ret_inv in H as [-> _]. cbn [length]. f_equal. eapply IH. eassumption.
Qed.

(** The ports of a dictionary can be copied when they are all there. *)
Lemma copy_ports_total (l : list (string * nat)) :
  forall s, Forall (fun kv => is_Some (ports s !! snd kv)) l ->
    exists kvs s',
      mapM (fun kv : string * nat => let! r := Port_copy (snd kv) in ret (fst kv, r)) l s
        = Ok (kvs, s').
Proof.
  induction l as [|[k r] l IH]; intros s Hl; cbn [mapM].
  - eexists _, _. reflexivity.
  - inversion Hl as [|? ? [v Hv] Hrest]; subst. cbn [snd] in Hv.
    assert (Hc : Port_copy r s =
                 Ok (length (ports s), mkStore (ports s ++ [v]) (patterns s) (devices s))).
    { unfold Port_copy, bind, get_port, new_port. rewrite Hv. reflexivity. }
    destruct (IH (mkStore (ports s ++ [v]) (patterns s) (devices s))) as (kvs & s' & Hk).
    { eapply Forall_impl; [exact Hrest|]. intros kv [w Hw]. exists w. cbn.
      apply lookup_app_l_Some. assumption. }
    eexists _, _. unfold bind at 1. cbn [fst snd]. unfold bind at 1. rewrite Hc.
    unfold ret at 1. unfold bind at 1. rewrite Hk. reflexivity.
Qed.

Lemma simple_pattern_preserved s s' p :
  preserves s s' -> simple_pattern s p -> simple_pattern s' p.
Proof.
  intros (Hports & _) (Hrefs & Hlive). split; [assumption|].
  intros k r Hk. destruct (Hlive k r Hk) as [v Hv]. exists v. auto.
Qed.

Lemma Pattern_copy_total unit s u :
  patterns s !! unit = Some u -> simple_pattern s u ->
  exists c s', Pattern_copy unit s = Ok (c, s').
Proof.
  intros Hu (Hrefs & Hlive). unfold Pattern_copy. cbn [deepcopy].
  unfold bind at 1, get_pattern. rewrite Hu.
  destruct (copy_ports_total (map_to_list (port u)) s) as (kvs & s1 & Hk).
  { rewrite Forall_forall. intros [k r] Hin. apply elem_of_map_to_list in Hin.
    apply (Hlive k r Hin). }
  unfold copy_port_dict. unfold bind at 1. unfold bind at 1. rewrite Hk.
  unfold ret at 1. rewrite Hrefs. cbn [mapM]. unfold bind at 1, ret at 1.
  eexists _, _. reflexivity.
Qed.

Lemma Array_cells_total unit p u (cells : list (Z * Z)) :
  forall s, patterns s !! unit = Some u -> simple_pattern s u ->
    exists cs s', mapM (Array_cell unit (PyInt p)) cells s = Ok (cs, s').
Proof.
  induction cells as [|ij cells IH]; intros s Hu Hsimple; cbn [mapM].
  - eexists _, _. reflexivity.
  - destruct (Pattern_copy_total _ _ _ Hu Hsimple) as (c & s1 & Hc).
    pose proof Hc as Hspec. unfold Pattern_copy in Hspec.
    apply deepcopy_spec in Hspec as (q & d & rs & _ & _ & Hpc & _).
    assert (Hcell : exists s2, Array_cell unit (PyInt p) ij s = Ok (c, s2)).
    { rewrite Array_cell_int. unfold bind at 1. rewrite Hc.
      unfold Pattern_translate, bind, get_pattern. rewrite Hpc.
      eexists. reflexivity. }
    destruct Hcell as (s2 & Hcell).
    pose proof Hcell as Hstep. rewrite Array_cell_int in Hstep.
    destruct (copy_then_translate _ _ _ _ _ _ _ Hu Hstep) as (Hpres & _).
    destruct (IH s2) as (cs & s3 & Hcs).
    { apply Hpres. assumption. }
    { eapply simple_pattern_preserved; eassumption. }
    eexists _, _. unfold bind at 1. rewrite Hcell. unfold bind at 1. rewrite Hcs.
    reflexivity.
Qed.

(** X9: the comprehension of lines 123 to 125 with an int as pitch.  The
    products are numbers, and whenever the comprehension returns, it has made
    one pattern per cell of the grid, in the order of the cells (i outside, j
    inside), the pattern of cell (i, j) holding the polygons of the unit
    moved by (i p, j p); the unit and every other object of the store are
    left as they were.  On a unit without sub-patterns whose ports are all
    there it does return. *)
Theorem Array_int_pitch_tiles (unit : ref) (m n p : Z) (s : store) (u : Pattern) :
  patterns s !! unit = Some u ->
  (forall cs s', Array_copies unit (m, n) (PyInt p) s = Ok (cs, s') ->
     Forall2 (fun ij c => polygons_at s' c = Some (tile p (polygons u) ij))
             (grid_cells m n) cs /\
     length cs = (Z.to_nat m * Z.to_nat n)%nat /\
     preserves s s') /\
  (simple_pattern s u -> exists cs s', Array_copies unit (m, n) (PyInt p) s = Ok (cs, s')).
Proof.
  intros Hu. rewrite Array_copies_cells. split.
  - intros cs s' H.
    destruct (Array_cells_int _ _ _ _ _ _ _ Hu H) as (Hpres & Hall).
    split; [assumption|]. split; [|assumption].
    rewrite (mapM_length _ _ _ _ _ H). apply grid_cells_length.
  - intros Hsimple. eapply Array_cells_total; eassumption.
Qed.

(** X10: line 123 hands the copies, which are pattern objects, to
    [MultiPolygon]; on a grid with at least one cell the array is never
    constructed, whatever the unit and the pitch are: either the comprehension
    fails, or it returns at least one pattern and [MultiPolygon] refuses
    it. *)
Theorem Array_nonempty_grid_raises (unit : ref) (m n : Z) (pitch : pyval) (s : store) :
  (1 <= m)%Z -> (1 <= n)%Z ->
  exists e, Array_post_init unit (m, n) pitch s = Err e.
Proof.
  intros Hm Hn. unfold Array_post_init.
  set (pitch' := if isinstance_float pitch then PyTuple [pitch; pitch] else pitch).
  unfold bind at 1.
  destruct (Array_copies unit (m, n) pitch' s) as [[cs s1]|e] eqn:Hcs; [|eauto].
  assert (Hlen : length cs = (Z.to_nat m * Z.to_nat n)%nat).
  { rewrite Array_copies_cells in Hcs. rewrite (mapM_length _ _ _ _ _ Hcs).
    apply grid_cells_length. }
  destruct cs as [|c cs]; [cbn in Hlen; nia|].
  exists TypeError. reflexivity.
Qed.

(** X11: the comprehension of lines 123 to 125 is empty when a side of the
    grid is zero or negative; no copy is taken, no product with the pitch is
    formed, whatever the pitch is, and the array is a new pattern without
    polygons and without ports. *)
Theorem Array_empty_grid (unit : ref) (m n : Z) (pitch : pyval) (s : store) :
  (m <= 0)%Z \/ (n <= 0)%Z ->
  exists a,
    Array_post_init unit (m, n) pitch s =
      Ok (a, mkStore (ports s) (patterns s ++ [mkPattern [] ∅ []]) (devices s)) /\
    Array_self a = length (patterns s).
Proof.
  intros Hmn. unfold Array_post_init. rewrite Array_copies_cells.
  assert (Hcells : grid_cells m n = []).
  { apply length_zero_iff_nil. rewrite grid_cells_length. lia. }
  rewrite Hcells. eexists. split; reflexivity.
Qed.

(** X12: the default pitch is [None], and an int times [None] is a type
    error; an array constructed without a pitch on a grid with at least one
    cell fails, with a [TypeError] as soon as the unit can be copied. *)
Theorem Array_without_pitch_raises (unit : ref) (m n : Z) (s : store) :
  (1 <= m)%Z -> (1 <= n)%Z ->
  exists e, Array_post_init unit (m, n) PyNone s = Err e /\
            (forall c s1, Pattern_copy unit s = Ok (c, s1) -> e = TypeError).
Proof.
  intros Hm Hn.
  destruct (range_pos m Hm) as (lm & Em), (range_pos n Hn) as (ln & En).
  unfold Array_post_init, Array_copies. cbn [fst snd isinstance_float]. rewrite Em, En.
  cbn [mbind list_bind app mapM].
  unfold bind at 1. unfold bind at 1. unfold bind at 1.
  destruct (Pattern_copy unit s) as [[c s1]|e] eqn:Ec.
  - exists TypeError. split; [reflexivity|]. intros; reflexivity.
  - exists e. split; [reflexivity|]. intros; discriminate.
Qed.

End Array_tiles.

(** * The cross of a waveguide that was just built *)

Lemma rotate_point_90 (p : point) : rotate_point 90 p = quarter_turn p.
Proof.
  unfold rotate_point, quarter_turn, radians.
  replace (90 * PI / 180) with (PI / 2) by lra.
  rewrite cos_PI2, sin_PI2. apply pair_equal_spec. split; lra.
Qed.

Lemma rotate_polygons_90 (ps : list polygon) :
  rotate_polygons 90 ps = map (map quarter_turn) ps.
Proof.
  unfold rotate_polygons. apply map_ext. intros poly. apply map_ext.
  apply rotate_point_90.
Qed.

Lemma rotate_port_90 (p : Port) : rotate_port 90 p = quarter_turn_port p.
Proof.
  unfold rotate_port, quarter_turn_port. rewrite rotate_point_90. reflexivity.
Qed.

Lemma centre_of_centred_box (b : R * R * R * R) :
  center_of (shift_box (0 - fst (center_of b)) (0 - snd (center_of b)) b) = (0, 0).
Proof.
  destruct b as [[[minx miny] maxx] maxy]. cbn. apply pair_equal_spec. split; lra.
Qed.

Lemma align_twice_polygons (b : R * R * R * R) (ps : list polygon) :
  translate_polygons (0 - fst (0, 0)) (0 - snd (0, 0))
    (translate_polygons (0 - fst (center_of b)) (0 - snd (center_of b)) ps) = centred b ps.
Proof. apply translate_polygons_compose; cbn; lra. Qed.

Lemma align_twice_port (b : R * R * R * R) (p : Port) :
  translate_port (0 - fst (0, 0)) (0 - snd (0, 0))
    (translate_port (0 - fst (center_of b)) (0 - snd (center_of b)) p) = centred_port b p.
Proof.
  unfold centred_port, translate_port. cbn [px py pa pw fst snd].
  f_equal; lra.
Qed.

Section Cross_objects.

Context {G : Geometry}.

(** X13: lines 92 to 98 on a waveguide that was just built, the last pattern
    of the store with its two ports a0 and b0 the last ports.  The cross is
    constructed; it owns the centred waveguide followed by its quarter turn;
    its ports a0 and b0 are the centred ports of the waveguide, a1 and b1
    their quarter turns, held by the two port objects the copy has made; it
    has no other port, and no device is touched. *)
Theorem Cross_of_waveguide (P : list Port) (Q : list Pattern) (D : list Device)
    (ps : list polygon) (b : R * R * R * R) (pa_ pb_ : Port) :
  bounds_of ps = Some b ->
  exists c s',
    Cross_post_init (length Q)
      (mkStore (P ++ [pa_; pb_])
         (Q ++ [mkPattern ps (<["b0" := S (length P)]> (<["a0" := length P]> ∅)) []])
         D) = Ok (c, s') /\
    polygons_at s' (Cross_self c) =
      Some (centred b ps ++ map (map quarter_turn) (centred b ps)) /\
    port_at s' (Cross_self c) "a0" = Some (centred_port b pa_) /\
    port_at s' (Cross_self c) "b0" = Some (centred_port b pb_) /\
    port_at s' (Cross_self c) "a1" = Some (quarter_turn_port (centred_port b pa_)) /\
    port_at s' (Cross_self c) "b1" = Some (quarter_turn_port (centred_port b pb_)) /\
    port_names s' (Cross_self c) = Some {["a0"; "a1"; "b0"; "b1"]} /\
    (q ← patterns s' !! Cross_self c; port q !! "a1") = Some (length P + 2)%nat /\
    (q ← patterns s' !! Cross_self c; port q !! "b1") = Some (length P + 3)%nat /\
    length (ports s') = (length P + 4)%nat /\
    devices s' = D.
Proof.
  intros Hb. eexists _, _.
  split.
  - replace (length Q) with (length Q + 0)%nat by lia.
    replace (S (length P)) with (length P + 1)%nat by lia.
    replace (<["a0" := length P]> (∅ : gmap string nat))
      with (<["a0" := (length P + 0)%nat]> (∅ : gmap string nat))
      by (f_equal; lia).
    unfold Cross_post_init, Pattern_align, Pattern_center, Pattern_bounds, Pattern_translate,
      Pattern_rotate, Pattern_init, port_getitem, port_setitem.
    repeat exec_step.
    rewrite bind_Pattern_copy. cbn [deepcopy]. unfold copy_port_dict, Port_copy.
    repeat (exec_step || rewrite map_to_list2 || rewrite port_refs2' ||
            (progress (cbn [mapM list_to_map foldr fst snd]))).
    rewrite !(bounds_nonempty _ _ Hb), !(bounds_translate _ _ _ _ Hb).
    rewrite !centre_of_centred_box, !align_twice_polygons, !align_twice_port,
      !rotate_port_90, !rotate_polygons_90.
    reflexivity.
  - cbn [Cross_self]. unfold polygons_at, port_at, port_names. cbn [patterns ports devices].
    rewrite !lookup_app_plus. cbn [lookup list_lookup mbind option_bind polygons port].
    repeat match goal with
           | |- context [ <[?i := ?x]> ?m !! ?j ] =>
               first [ rewrite (lookup_insert_eq m i x)
                     | rewrite (lookup_insert_ne m i j x) by done ]
           end.
    cbn [mbind option_bind].
    rewrite !lookup_app_plus. cbn [lookup list_lookup].
    repeat split; try reflexivity.
    rewrite length_app. reflexivity.
Qed.

(** X14: lines 95 and 97 read the ports a0 and b0 of the waveguide; a cross is
    never constructed from a waveguide that lacks one of the two ports. *)
Theorem Cross_needs_ports (wg : ref) (s : store) (p : Pattern) :
  patterns s !! wg = Some p ->
  port p !! "a0" = None \/ port p !! "b0" = None ->
  forall c s', Cross_post_init wg s <> Ok (c, s').
Proof.
  intros Hp Hbad c s' H.
  apply Cross_post_init_inv in H
    as (p0 & b & b' & q & h_a0 & h_b0 & Hp0 & _ & _ & _ & _ & _ & _ & Ha & _ & Hb0 & _).
  rewrite Hp in Hp0. injection Hp0 as <-.
  destruct Hbad as [Hbad | Hbad].
  - rewrite Hbad in Ha. discriminate.
  - rewrite Hbad in Hb0. discriminate.
Qed.

End Cross_objects.

(** * The constructions on concrete inputs *)

Section Examples.

#[local] Existing Instance segment_geometry.

Lemma DC_example_bounds :
  bounds_of (DC_lower_polygons (G := segment_geometry) DC_example ++
             DC_upper_polygons (G := segment_geometry) DC_example) =
  Some (0, - (1/2), 10, 9/2).
Proof.
  unfold DC_lower_polygons, DC_upper_polygons, DC_lower_curve, DC_upper_curve.
  cbn [sweep segment_geometry curve_length DC_example waveguide_w interport_distance
       interaction_l].
  bounds_compute.
Qed.

Lemma DC_example_run :
  DC_post_init (G := segment_geometry) DC_example empty_store =
  Ok (DC_object DC_example 0, DC_example_store).
Proof.
  rewrite (DC_post_init_run DC_example empty_store _ ltac:(cbn; lra) ltac:(cbn; lra)
             DC_example_bounds).
  unfold DC_example_store, size_of. cbn [fst empty_store ports patterns devices length app].
  replace (10 - 0) with 10 by lra. reflexivity.
Qed.

Lemma DC_ports_witness :
  DC_post_init (G := segment_geometry) DC_example empty_store =
    Ok (DC_object DC_example 0, DC_example_store) /\
  port_at DC_example_store 2%nat "a1" = Some (mkPort 0 4 (-180) 1).
Proof.
  split; [exact DC_example_run|].
  destruct (DC_ports DC_example empty_store DC_example_store (DC_object DC_example 0)
              DC_example_run) as (sx & sy & _ & _ & _ & Ha1 & _).
  exact Ha1.
Defined.

Lemma DC_default_width_and_mirrored_paths_witness :
  coupler_waveguide_w DC_example = None /\
  DC_post_init (G := segment_geometry) DC_example empty_store =
    Ok (DC_object DC_example 0, DC_example_store) /\
  coupler_waveguide_w (DC_attrs (DC_object DC_example 0)) = Some 1.
Proof.
  split; [reflexivity|]. split; [exact DC_example_run|].
  exact (proj1 (DC_default_width_and_mirrored_paths (G := segment_geometry) DC_example
                  empty_store DC_example_store (DC_object DC_example 0) eq_refl
                  DC_example_run)).
Defined.

Lemma interaction_points_rectangle_witness :
  DC_post_init (G := segment_geometry) DC_example empty_store =
    Ok (DC_object DC_example 0, DC_example_store) /\
  exists cx cy : R,
    Pattern_center 2%nat DC_example_store = Ok ((cx, cy), DC_example_store) /\
    interaction_points (DC_object DC_example 0) DC_example_store =
      Ok ([ (cx - 10 / 2, cy - (1 + 1) / 2); (cx - 10 / 2, cy + (1 + 1) / 2);
            (cx + 10 / 2, cy - (1 + 1) / 2); (cx + 10 / 2, cy + (1 + 1) / 2) ],
          DC_example_store).
Proof.
  split; [exact DC_example_run|].
  exact (interaction_points_rectangle (G := segment_geometry) DC_example empty_store
           DC_example_store (DC_object DC_example 0) DC_example_run).
Defined.

Lemma DC_wide_gap_bounds :
  bounds_of (DC_lower_polygons (G := segment_geometry) DC_wide_gap ++
             DC_upper_polygons (G := segment_geometry) DC_wide_gap) =
  Some (0, - (1/2), 10, 5/2).
Proof.
  unfold DC_lower_polygons, DC_upper_polygons, DC_lower_curve, DC_upper_curve.
  cbn [sweep segment_geometry curve_length DC_wide_gap waveguide_w interport_distance
       interaction_l].
  bounds_compute.
Qed.

(** C4 does not hold of the code: this coupler is constructed, no error is
    raised. *)
Lemma DC_wide_gap_not_rejected :
  interport_distance DC_wide_gap <= gap_w DC_wide_gap /\
  exists d s', DC_post_init (G := segment_geometry) DC_wide_gap empty_store = Ok (d, s').
Proof.
  split; [cbn; lra|].
  eexists _, _.
  exact (DC_post_init_run DC_wide_gap empty_store _ ltac:(cbn; lra) ltac:(cbn; lra)
           DC_wide_gap_bounds).
Qed.

Lemma DC_wide_gap_is_constructed_witness :
  interport_distance DC_wide_gap <= gap_w DC_wide_gap /\
  exists d s',
    DC_post_init (G := segment_geometry) DC_wide_gap empty_store = Ok (d, s') /\
    DC_dy DC_wide_gap <= - DC_cw DC_wide_gap / 2.
Proof.
  assert (H1 : interport_distance DC_wide_gap <= gap_w DC_wide_gap) by (cbn; lra).
  split; [exact H1|].
  destruct (DC_wide_gap_is_constructed (G := segment_geometry) DC_wide_gap empty_store H1
              ltac:(cbn; lra) ltac:(cbn; lra)
              ltac:(rewrite DC_wide_gap_bounds; discriminate))
    as (d & s' & Hrun & _ & _ & _ & Hdy).
  exists d, s'. split; assumption.
Defined.

Lemma waveguide_store_built :
  (let! c := straight 10 in path c 1) empty_store = Ok (0%nat, waveguide_store).
Proof. reflexivity. Qed.

Lemma waveguide_bounds :
  bounds_of (polygons waveguide_pattern) = Some (0, - (1/2), 10, 1/2).
Proof. unfold waveguide_pattern. cbn [polygons]. bounds_compute. Qed.

Lemma Cross_example_runs :
  exists c s', Cross_post_init 0%nat waveguide_store = Ok (c, s').
Proof. exact (Cross_runs [] [] [] _ _ _ _ waveguide_bounds). Qed.

Lemma Cross_moves_caller_waveguide_witness :
  exists c s',
    Cross_post_init 0%nat waveguide_store = Ok (c, s') /\
    polygons_at s' 0%nat <> polygons_at waveguide_store 0%nat.
Proof.
  destruct Cross_example_runs as (c & s' & Hrun). exists c, s'.
  split; [exact Hrun|].
  refine (proj2 (Cross_moves_caller_waveguide 0%nat waveguide_store s' c waveguide_pattern
                   _ eq_refl waveguide_bounds _ Hrun)).
  cbn. intros [= H _]. lra.
Defined.

Lemma Cross_ports_are_shared_witness :
  exists c s',
    Cross_post_init 0%nat waveguide_store = Ok (c, s') /\ Cross_self c <> 0%nat.
Proof.
  destruct Cross_example_runs as (c & s' & Hrun). exists c, s'.
  split; [exact Hrun|].
  exact (proj1 (Cross_ports_are_shared 0%nat waveguide_store s' c "a0" (or_introl eq_refl)
                  Hrun)).
Defined.

Lemma FocusingGrating_example_bounds :
  bounds_of (stub_polygons FocusingGrating_example) = Some (0, - (1/2), 10, 1/2).
Proof.
  unfold stub_polygons.
  cbn [sweep segment_geometry curve_length FocusingGrating_example fg_waveguide_l
       fg_waveguide_w].
  bounds_compute.
Qed.

Lemma tan_45_degrees : tan (radians 90 / 2) = 1.
Proof.
  replace (radians 90 / 2) with (PI / 4) by (unfold radians; lra). apply tan_PI4.
Qed.

Lemma FocusingGrating_example_offset : stub_offset FocusingGrating_example = 1.
Proof.
  unfold stub_offset. cbn [FocusingGrating_example fg_waveguide_w fg_angle].
  rewrite tan_45_degrees. replace (1 / 1) with 1 by lra. apply Rabs_pos_eq. lra.
Qed.

Lemma FocusingGrating_example_runs :
  exists w s', FocusingGrating_stub FocusingGrating_example empty_store = Ok (w, s').
Proof.
  rewrite FocusingGrating_stub_eq, (bounds_nonempty _ _ FocusingGrating_example_bounds).
  eauto.
Qed.

(** C2 does not hold of the code: for an opening angle of 90 degrees and width
    1 the right edge of the placed stub, and its port b0, are at 1, not at
    w / (2 tan(angle / 2)) = 1/2. *)
Lemma FocusingGrating_stub_offset_not_halved :
  exists w s' minx miny maxx maxy,
    FocusingGrating_stub FocusingGrating_example empty_store = Ok (w, s') /\
    Pattern_bounds (ridge_waveguide w) s' = Ok ((minx, miny, maxx, maxy), s') /\
    maxx = 1 /\
    maxx <> fg_waveguide_w FocusingGrating_example /
            (2 * tan (radians (fg_angle FocusingGrating_example) / 2)) /\
    exists b0, dport_at s' (WaveguideDevice_self w) "b0" = Some b0 /\ px b0 = 1.
Proof.
  destruct FocusingGrating_example_runs as (w & s' & Hrun).
  pose proof Hrun as Hinv.
  apply FocusingGrating_stub_inv in Hinv as (minx & miny & maxx & maxy & Hb & -> & ->).
  rewrite (bounds_nonempty _ _ FocusingGrating_example_bounds) in Hb.
  injection Hb as <- <- <- <-.
  eexists _, _, _, _, _, _. split; [exact Hrun|].
  cbn [ridge_waveguide WaveguideDevice_self]. split.
  - apply (stub_placed_bounds FocusingGrating_example empty_store _ _ _ _
             FocusingGrating_example_bounds).
  - rewrite FocusingGrating_example_offset.
    cbn [FocusingGrating_example fg_waveguide_w fg_angle]. rewrite tan_45_degrees.
    split; [lra|]. split; [lra|].
    eexists. split; [reflexivity|].
    cbn [px translate_port end_port curve_ends segment_geometry curve_length fst snd
         FocusingGrating_example fg_waveguide_l].
    rewrite FocusingGrating_example_offset. lra.
Qed.

Lemma FocusingGrating_stub_offset_witness :
  tan (radians (fg_angle FocusingGrating_example) / 2) <> 0 /\
  bounds_of (stub_polygons FocusingGrating_example) = Some (0, - (1/2), 10, 1/2) /\
  exists w s',
    FocusingGrating_stub FocusingGrating_example empty_store = Ok (w, s') /\
    polygons_at s' (ridge_waveguide w) =
      Some (translate_polygons (Rabs (1 / tan (radians 90 / 2)) - 10) 0
              (stub_polygons FocusingGrating_example)) /\
    dport_at s' (WaveguideDevice_self w) "b0" =
      Some (translate_port (Rabs (1 / tan (radians 90 / 2)) - 10) 0 (mkPort 10 0 0 1)).
Proof.
  assert (Htan : tan (radians (fg_angle FocusingGrating_example) / 2) <> 0).
  { cbn [FocusingGrating_example fg_angle]. rewrite tan_45_degrees. lra. }
  split; [exact Htan|]. split; [exact FocusingGrating_example_bounds|].
  destruct FocusingGrating_example_runs as (w & s' & Hrun).
  destruct (FocusingGrating_stub_offset FocusingGrating_example empty_store s' w _ _ _ _
              Htan FocusingGrating_example_bounds Hrun)
    as (Hpoly & _ & _ & _ & _ & Hb0 & _).
  exists w, s'. split; [exact Hrun|]. split; [exact Hpoly|exact Hb0].
Defined.

(** C8 does not hold of the code: this grating is constructed, with stripes
    twice as wide as the pitch. *)
Lemma StraightGrating_bad_duty_cycle_not_rejected :
  outside_unit_interval (sg_duty_cycle StraightGrating_example) /\
  exists g s',
    StraightGrating_post_init StraightGrating_example waveguide_store = Ok (g, s') /\
    stripe_w g = 2.
Proof.
  split; [left; cbn; lra|].
  eexists _, _. split.
  - apply (StraightGrating_post_init_run StraightGrating_example waveguide_store
             waveguide_pattern 0%nat (mkPort 0 0 180 1)); reflexivity.
  - cbn. lra.
Qed.

Lemma duty_cycle_outside_unit_interval_witness :
  outside_unit_interval (-1) /\
  FocusingGrating_post_init FocusingGrating_bad_duty_cycle empty_store = Err ValueError.
Proof.
  assert (H : outside_unit_interval (-1)) by (left; lra).
  split; [exact H|].
  exact (proj1 (duty_cycle_outside_unit_interval (-1) H) FocusingGrating_bad_duty_cycle
           empty_store eq_refl ltac:(cbn; lia)).
Defined.

Lemma waveguide_store_copy :
  exists c s1, Pattern_copy 0%nat waveguide_store = Ok (c, s1).
Proof. eexists _, _. vm_compute. reflexivity. Qed.

Lemma Array_tuple_pitch_raises_witness :
  (1 <= 2)%Z /\ (1 <= 3)%Z /\ tuple_pitch (PyFloat 1) /\
  Array_post_init 0%nat (2, 3)%Z (PyFloat 1) waveguide_store = Err TypeError.
Proof.
  assert (Hp : tuple_pitch (PyFloat 1)) by (left; reflexivity).
  repeat (split; [first [lia | exact Hp]|]).
  destruct (Array_tuple_pitch_raises 0%nat 2 3 (PyFloat 1) waveguide_store
              ltac:(lia) ltac:(lia) Hp) as (e & He & Hc).
  destruct waveguide_store_copy as (c & s1 & Hcopy).
  rewrite He. f_equal. exact (Hc c s1 Hcopy).
Defined.

Lemma DC_path_ports_are_copies_witness :
  DC_post_init (G := segment_geometry) DC_example empty_store =
    Ok (DC_object DC_example 0, DC_example_store) /\
  port_at DC_example_store (lower_path (DC_object DC_example 0)) "a0" =
    port_at DC_example_store (DC_self (DC_object DC_example 0)) "a0" /\
  port_names DC_example_store (upper_path (DC_object DC_example 0)) = Some {[ "a0"; "b0" ]}.
Proof.
  split; [exact DC_example_run|].
  destruct (DC_path_ports_are_copies (G := segment_geometry) DC_example empty_store
              DC_example_store (DC_object DC_example 0) DC_example_run)
    as (Ha0 & _ & _ & _ & _ & Hnames & _).
  split; assumption.
Defined.

Lemma DC_post_init_frame_witness :
  DC_post_init (G := segment_geometry) DC_example empty_store =
    Ok (DC_object DC_example 0, DC_example_store) /\
  length (ports DC_example_store) = (length (ports empty_store) + 12)%nat /\
  length (patterns DC_example_store) = (length (patterns empty_store) + 3)%nat.
Proof.
  split; [exact DC_example_run|].
  destruct (DC_post_init_frame (G := segment_geometry) DC_example empty_store
              DC_example_store (DC_object DC_example 0) DC_example_run)
    as (_ & _ & _ & Hports & Hpatterns & _).
  split; assumption.
Defined.

Lemma WaveguideDevice_layers_and_ports_witness :
  exists w s',
    WaveguideDevice_post_init 0%nat None "ridge_si" "rib_si" "rib_wg" waveguide_store =
      Ok (w, s') /\
    layers_at s' (WaveguideDevice_self w) = Some [(0%nat, Some "ridge_si")] /\
    dport_at s' (WaveguideDevice_self w) "b0" = Some (mkPort 10 0 0 1).
Proof.
  destruct (WaveguideDevice_layers_and_ports 0%nat None "ridge_si" "rib_si" "rib_wg"
              waveguide_store waveguide_pattern 0%nat 1%nat (mkPort 0 0 180 1)
              (mkPort 10 0 0 1) eq_refl eq_refl eq_refl eq_refl eq_refl)
    as (w & s' & Hrun & Hlayers & _ & _ & Hb0 & _).
  exists w, s'. repeat split; assumption.
Defined.

Lemma WaveguideDevice_missing_port_witness :
  patterns portless_store !! 0%nat = Some portless_pattern /\
  port portless_pattern !! "a0" = None /\
  WaveguideDevice_post_init 0%nat None "ridge_si" "rib_si" "rib_wg" portless_store =
    Err (KeyError "a0").
Proof.
  split; [reflexivity|]. split; [reflexivity|].
  exact (proj1 (WaveguideDevice_missing_port 0%nat None "ridge_si" "rib_si" "rib_wg"
                  portless_store portless_pattern eq_refl) eq_refl).
Defined.

Lemma WaveguideDevice_ports_are_copies_witness :
  exists w s' l,
    WaveguideDevice_post_init 0%nat None "ridge_si" "rib_si" "rib_wg" waveguide_store =
      Ok (w, s') /\
    dport_at (assign_port l (mkPort 1 1 0 1) s') (WaveguideDevice_self w) "a0" =
      Some (mkPort 1 1 0 1) /\
    port_at (assign_port l (mkPort 1 1 0 1) s') 0%nat "a0" = Some (mkPort 0 0 180 1).
Proof.
  destruct (WaveguideDevice_ports_are_copies 0%nat None "ridge_si" "rib_si" "rib_wg"
              waveguide_store waveguide_pattern 0%nat 1%nat (mkPort 0 0 180 1)
              (mkPort 10 0 0 1) eq_refl eq_refl eq_refl eq_refl eq_refl)
    as (w & s' & l & Hrun & _ & _ & Hassign).
  exists w, s', l. split; [exact Hrun|]. exact (Hassign (mkPort 1 1 0 1)).
Defined.

Lemma StraightGrating_layers_and_port_witness :
  exists g s' slab teeth,
    StraightGrating_post_init StraightGrating_half_duty waveguide_store = Ok (g, s') /\
    layers_at s' (StraightGrating_self g) =
      Some [(slab, Some "rib_si"); (teeth, Some "ridge_si"); (0%nat, Some "ridge_si")] /\
    dport_at s' (StraightGrating_self g) "a0" = Some (mkPort 0 0 180 1).
Proof.
  destruct (StraightGrating_layers_and_port StraightGrating_half_duty waveguide_store
              waveguide_pattern 0%nat (mkPort 0 0 180 1) eq_refl eq_refl eq_refl)
    as (g & s' & slab & teeth & a0 & Hrun & Hlayers & _ & _ & _ & Hdict & Ha0 & _).
  exists g, s', slab, teeth. split; [exact Hrun|]. split; [exact Hlayers|].
  unfold dport_at. destruct (devices s' !! StraightGrating_self g) as [d|]; [|discriminate].
  cbn in Hdict. injection Hdict as Hdict. cbn [mbind option_bind].
  rewrite Hdict, lookup_singleton_eq. exact Ha0.
Defined.

Lemma StraightGrating_missing_port_witness :
  patterns portless_store !! sg_waveguide StraightGrating_half_duty = Some portless_pattern /\
  StraightGrating_post_init StraightGrating_half_duty portless_store = Err (KeyError "a0").
Proof.
  split; [reflexivity|].
  exact (StraightGrating_missing_port StraightGrating_half_duty portless_store
           portless_pattern eq_refl eq_refl).
Defined.

Lemma FocusingGrating_no_period_witness :
  (fg_num_periods FocusingGrating_no_periods <= 0)%Z /\
  FocusingGrating_post_init FocusingGrating_no_periods empty_store = Err IndexError.
Proof.
  assert (H : (fg_num_periods FocusingGrating_no_periods <= 0)%Z) by (cbn; lia).
  split; [exact H|].
  exact (FocusingGrating_no_period FocusingGrating_no_periods empty_store H).
Defined.

Lemma waveguide_pattern_simple : simple_pattern waveguide_store waveguide_pattern.
Proof.
  split; [reflexivity|]. intros k r. unfold waveguide_pattern. cbn [port].
  rewrite !lookup_insert_Some, lookup_empty.
  intros [[_ <-]|[_ [[_ <-]|[_ H]]]]; [eexists; reflexivity|eexists; reflexivity|discriminate].
Qed.

Lemma Array_int_pitch_tiles_witness :
  patterns waveguide_store !! 0%nat = Some waveguide_pattern /\
  exists cs s',
    Array_copies 0%nat (2, 3)%Z (PyInt 5) waveguide_store = Ok (cs, s') /\
    Forall2 (fun ij c => polygons_at s' c = Some (tile 5 (polygons waveguide_pattern) ij))
            (grid_cells 2 3) cs /\
    length cs = 6%nat.
Proof.
  split; [reflexivity|].
  destruct (Array_int_pitch_tiles 0%nat 2 3 5 waveguide_store waveguide_pattern eq_refl)
    as (Htiles & Hruns).
  destruct (Hruns waveguide_pattern_simple) as (cs & s' & Hrun).
  destruct (Htiles cs s' Hrun) as (Hall & Hlen & _).
  exists cs, s'. split; [exact Hrun|]. split; [exact Hall|exact Hlen].
Defined.

Lemma Array_nonempty_grid_raises_witness :
  (1 <= 2)%Z /\ (1 <= 3)%Z /\
  exists e, Array_post_init 0%nat (2, 3)%Z (PyInt 5) waveguide_store = Err e.
Proof.
  repeat (split; [lia|]).
  exact (Array_nonempty_grid_raises 0%nat 2 3 (PyInt 5) waveguide_store
           ltac:(lia) ltac:(lia)).
Defined.

Lemma Array_empty_grid_witness :
  ((0 <= 0)%Z \/ (3 <= 0)%Z) /\
  exists a,
    Array_post_init 0%nat (0, 3)%Z PyNone waveguide_store =
      Ok (a, mkStore (ports waveguide_store)
               (patterns waveguide_store ++ [mkPattern [] ∅ []])
               (devices waveguide_store)) /\
    Array_self a = 1%nat.
Proof.
  assert (H : (0 <= 0)%Z \/ (3 <= 0)%Z) by (left; lia).
  split; [exact H|].
  exact (Array_empty_grid 0%nat 0 3 PyNone waveguide_store H).
Defined.

Lemma Array_without_pitch_raises_witness :
  (1 <= 2)%Z /\ (1 <= 3)%Z /\
  Array_post_init 0%nat (2, 3)%Z PyNone waveguide_store = Err TypeError.
Proof.
  repeat (split; [lia|]).
  destruct (Array_without_pitch_raises 0%nat 2 3 waveguide_store ltac:(lia) ltac:(lia))
    as (e & He & Hc).
  destruct waveguide_store_copy as (c & s1 & Hcopy).
  rewrite He. f_equal. exact (Hc c s1 Hcopy).
Defined.

Lemma Cross_of_waveguide_witness :
  exists c s',
    Cross_post_init 0%nat waveguide_store = Ok (c, s') /\
    port_at s' (Cross_self c) "a1" =
      Some (quarter_turn_port (centred_port (0, - (1/2), 10, 1/2) (mkPort 0 0 180 1))) /\
    port_names s' (Cross_self c) = Some {[ "a0"; "a1"; "b0"; "b1" ]}.
Proof.
  destruct (Cross_of_waveguide [] [] [] _ _ (mkPort 0 0 180 1) (mkPort 10 0 0 1)
              waveguide_bounds)
    as (c & s' & Hrun & _ & _ & _ & Ha1 & _ & Hnames & _).
  exists c, s'. repeat split; assumption.
Defined.

Lemma Cross_needs_ports_witness :
  patterns portless_store !! 0%nat = Some portless_pattern /\
  port portless_pattern !! "a0" = None /\
  forall c s', Cross_post_init 0%nat portless_store <> Ok (c, s').
Proof.
  split; [reflexivity|]. split; [reflexivity|].
  exact (Cross_needs_ports 0%nat portless_store portless_pattern eq_refl
           (or_introl eq_refl)).
Defined.

End Examples.
